(** * constellix-go-client: the request-signing and dispatch pipeline

    A shallow embedding of [client/client.go]: token generation, request
    construction, the optional rate gate, dispatch, and the two error
    normalizers, followed by the properties of the specification that the
    code meets or misses.

    Go strings and byte slices are [string] (lists of 8-bit [ascii]);
    [int64] and [time.Duration] are [Z]; [float32] is [spec_float] at
    precision 24 and maximal exponent 128. *)

From Stdlib Require Import ZArith List Bool Ascii String Lia.
From Stdlib Require Decimal DecimalString DecimalZ.
From Stdlib Require Import SpecFloat.
Import ListNotations.

Local Open Scope string_scope.
Local Open Scope Z_scope.

(* ================================================================== *)
(** * Part I: the embedding *)
(* ================================================================== *)

(** ** Control outcomes

    A Go call either returns, panics (a run-time fault that unwinds the
    caller), or ends the process through [log.Fatal]. *)

Inductive Outcome (A : Type) : Type :=
| Return (a : A)
| Panic (msg : string)
| Fatal (msg : string).

Arguments Return {A} a.
Arguments Panic {A} msg.
Arguments Fatal {A} msg.

(** A Go [error] value: [None] is [nil], [Some m] an error whose
    [Error()] text is [m].  [fmt.Errorf] never returns [nil], so the
    empty message is still a non-nil error. *)
Definition error := option string.

Definition fmt_Errorf_s (arg : string) : error := Some arg.

(** ** Bytes *)

Definition byte_of (c : ascii) : Z := Z.of_N (N_of_ascii c).
Definition ascii_of (b : Z) : ascii := ascii_of_N (Z.to_N (b mod 256)).

Definition bytes_of (s : string) : list Z := map byte_of (list_ascii_of_string s).
Definition string_of_bytes (l : list Z) : string :=
  string_of_list_ascii (map ascii_of l).

Definition dquote : ascii := ascii_of 34.

(** ** strings.Split, for a one-byte separator (every call site of the
    client passes the separator of one slash) *)

Fixpoint strings_Split (s : string) (sep : ascii) : list string :=
  match s with
  | EmptyString => [EmptyString]
  | String c r =>
      if Ascii.eqb c sep then EmptyString :: strings_Split r sep
      else match strings_Split r sep with
           | h :: t => String c h :: t
           | [] => [String c EmptyString]
           end
  end.

(** [occurs c s]: the byte [c] occurs in [s]. *)
Fixpoint occurs (c : ascii) (s : string) : bool :=
  match s with
  | EmptyString => false
  | String x r => Ascii.eqb x c || occurs c r
  end.

(** Every byte of a text passes a test. *)
Fixpoint all_bytes (p : ascii -> bool) (s : string) : bool :=
  match s with
  | EmptyString => true
  | String c r => p c && all_bytes p r
  end.

(** ** strconv.FormatInt in base 10 *)

Definition strconv_FormatInt10 (i : Z) : string :=
  DecimalString.NilZero.string_of_int (Z.to_int i).

(** ** encoding/base64, the standard alphabet with padding *)

Module base64.

Definition alphabet : string :=
  "ABCDEFGHIJKLMNOPQRSTUVWXYZabcdefghijklmnopqrstuvwxyz0123456789+/".

Definition enc (i : Z) : ascii :=
  match String.get (Z.to_nat (Z.land i 63)) alphabet with
  | Some c => c
  | None => "="%char
  end.

Fixpoint encode (src : list Z) : string :=
  match src with
  | [] => EmptyString
  | [a] =>
      let v := Z.shiftl a 16 in
      String (enc (Z.shiftr v 18)) (String (enc (Z.shiftr v 12)) "==")
  | [a; b] =>
      let v := Z.lor (Z.shiftl a 16) (Z.shiftl b 8) in
      String (enc (Z.shiftr v 18))
        (String (enc (Z.shiftr v 12)) (String (enc (Z.shiftr v 6)) "="))
  | a :: b :: c :: rest =>
      let v := Z.lor (Z.lor (Z.shiftl a 16) (Z.shiftl b 8)) c in
      String (enc (Z.shiftr v 18))
        (String (enc (Z.shiftr v 12))
           (String (enc (Z.shiftr v 6)) (String (enc v) (encode rest))))
  end.

Definition StdEncoding_EncodeToString (src : list Z) : string := encode src.

End base64.

(** ** crypto/sha1 (FIPS 180-4), on 32-bit words held in [Z] *)

Module sha1.

Definition w32 (x : Z) : Z := Z.land x 4294967295.
Definition add32 (x y : Z) : Z := w32 (x + y).
Definition rotl (n x : Z) : Z :=
  w32 (Z.lor (Z.shiftl x n) (Z.shiftr x (32 - n))).

(** Big-endian bytes of a [k]-byte quantity. *)
Fixpoint be_bytes (k : nat) (x : Z) : list Z :=
  match k with
  | O => []
  | S k' => Z.land (Z.shiftr x (8 * Z.of_nat k')) 255 :: be_bytes k' x
  end.

Fixpoint be_word (bs : list Z) (acc : Z) : Z :=
  match bs with
  | [] => acc
  | b :: r => be_word r (Z.lor (Z.shiftl acc 8) b)
  end.

(** The message followed by 0x80, zeros up to 56 modulo 64, and the bit
    length on eight bytes. *)
Definition pad (msg : list Z) : list Z :=
  let len := Z.of_nat (List.length msg) in
  let zeros := Z.to_nat ((55 - len) mod 64) in
  msg ++ 128 :: repeat 0 zeros ++ be_bytes 8 (8 * len).

Fixpoint words (n : nat) (bs : list Z) : list Z :=
  match n with
  | O => []
  | S n' => be_word (firstn 4 bs) 0 :: words n' (skipn 4 bs)
  end.

(** The message schedule, newest word first: [rev] gives w0 .. w79. *)
Fixpoint extend (n : nat) (ws : list Z) : list Z :=
  match n with
  | O => ws
  | S n' =>
      let x := Z.lxor (Z.lxor (nth 2 ws 0) (nth 7 ws 0))
                      (Z.lxor (nth 13 ws 0) (nth 15 ws 0)) in
      extend n' (rotl 1 x :: ws)
  end.

Definition schedule (block : list Z) : list Z :=
  rev (extend 64 (rev (words 16 block))).

Definition digest : Type := (Z * Z * Z * Z * Z)%type.

Definition round (t : Z) (st : digest) (w : Z) : digest :=
  let '(a, b, c, d, e) := st in
  let '(f, k) :=
    if t <? 20 then (Z.lor (Z.land b c) (Z.land (Z.lxor b 4294967295) d), 1518500249)
    else if t <? 40 then (Z.lxor (Z.lxor b c) d, 1859775393)
    else if t <? 60 then
      (Z.lor (Z.lor (Z.land b c) (Z.land b d)) (Z.land c d), 2400959708)
    else (Z.lxor (Z.lxor b c) d, 3395469782) in
  let temp := add32 (add32 (add32 (add32 (rotl 5 a) f) e) k) w in
  (temp, a, rotl 30 b, c, d).

Fixpoint rounds (t : Z) (ws : list Z) (st : digest) : digest :=
  match ws with
  | [] => st
  | w :: r => rounds (t + 1) r (round t st w)
  end.

Definition block (h : digest) (blk : list Z) : digest :=
  let '(h0, h1, h2, h3, h4) := h in
  let '(a, b, c, d, e) := rounds 0 (schedule blk) h in
  (add32 h0 a, add32 h1 b, add32 h2 c, add32 h3 d, add32 h4 e).

Fixpoint blocks (n : nat) (bs : list Z) (h : digest) : digest :=
  match n with
  | O => h
  | S n' => blocks n' (skipn 64 bs) (block h (firstn 64 bs))
  end.

Definition init : digest :=
  (1732584193, 4023233417, 2562383102, 271733878, 3285377520).

Definition Sum (msg : list Z) : list Z :=
  let p := pad msg in
  let '(h0, h1, h2, h3, h4) := blocks (List.length p / 64)%nat p init in
  be_bytes 4 h0 ++ be_bytes 4 h1 ++ be_bytes 4 h2 ++ be_bytes 4 h3
    ++ be_bytes 4 h4.

Definition BlockSize : nat := 64.

End sha1.

(** ** crypto/hmac over SHA-1 (RFC 2104) *)

Module hmac.

Definition xor_pad (p : Z) (key : list Z) : list Z :=
  map (fun k => Z.lxor k p) key.

Definition block_key (key : list Z) : list Z :=
  let k := if (sha1.BlockSize <? List.length key)%nat then sha1.Sum key else key in
  k ++ repeat 0 (sha1.BlockSize - List.length k)%nat.

(** [h := hmac.New(sha1.New, key); h.Write(msg); h.Sum(nil)] *)
Definition sha1_Sum (key msg : list Z) : list Z :=
  let k := block_key key in
  sha1.Sum (xor_pad 92 k ++ sha1.Sum (xor_pad 54 k ++ msg)).

End hmac.

(** A digest printed in lower-case hexadecimal, for the test vectors. *)
Definition hex_digit (n : Z) : ascii :=
  match String.get (Z.to_nat n) "0123456789abcdef" with
  | Some c => c
  | None => "?"%char
  end.

Fixpoint hex (bs : list Z) : string :=
  match bs with
  | [] => EmptyString
  | b :: r => String (hex_digit (Z.shiftr b 4)) (String (hex_digit (Z.land b 15)) (hex r))
  end.

(** ** The token generator

    [now] is the reading of [time.Now().UnixNano()]; Go's integer
    division truncates toward zero, which is [Z.quot]. *)

Definition Millisecond : Z := 1000000.

Definition getToken (now : Z) (apiKey secretKey : string) : string :=
  let epochTime := strconv_FormatInt10 (Z.quot now Millisecond) in
  let sha := base64.StdEncoding_EncodeToString
               (hmac.sha1_Sum (bytes_of secretKey) (bytes_of epochTime)) in
  apiKey ++ ":" ++ sha ++ ":" ++ epochTime.

(** ** Go values behind [interface{}], as encoding/json produces them *)

#[warnings="-register-all"]
Inductive value : Type :=
| VNil
| VBool (b : bool)
| VFloat64 (literal : string)
| VString (s : string)
| VSlice (elems : list value)
| VMap (fields : list (string * value)).

(** A Go [map[string]interface{}]: at most one binding per key. *)
Definition gomap : Type := list (string * value).

Definition map_set (k : string) (v : value) (m : gomap) : gomap :=
  (k, v) :: filter (fun kv => negb (String.eqb (fst kv) k)) m.

(** Indexing a map, nil or not, yields the zero value when the key is
    absent; the zero value of [interface{}] is nil. *)
Fixpoint map_index (m : gomap) (k : string) : value :=
  match m with
  | [] => VNil
  | (k', v) :: r => if String.eqb k' k then v else map_index r k
  end.

(** ** A reference decoder for [json.Unmarshal] into an interface value

    RFC 8259 as encoding/json scans it.  Numbers keep their literal
    text; bytes above 0x7f inside strings are copied as they are (Go
    does the same on well-formed UTF-8). *)

Module json.

Definition is_space (c : ascii) : bool :=
  let n := byte_of c in (n =? 32) || (n =? 9) || (n =? 10) || (n =? 13).

Definition is_digit (c : ascii) : bool :=
  let n := byte_of c in (48 <=? n) && (n <=? 57).

Fixpoint skip_ws (s : string) : string :=
  match s with
  | String c r => if is_space c then skip_ws r else s
  | EmptyString => s
  end.

Fixpoint strip_prefix (p s : string) : option string :=
  match p, s with
  | EmptyString, _ => Some s
  | String a p', String b s' => if Ascii.eqb a b then strip_prefix p' s' else None
  | String _ _, EmptyString => None
  end.

(** The longest prefix of digits, and what follows it. *)
Fixpoint digits (s : string) : string * string :=
  match s with
  | String c r =>
      if is_digit c then let (d, t) := digits r in (String c d, t)
      else (EmptyString, s)
  | EmptyString => (EmptyString, EmptyString)
  end.

Definition sign (allow_plus : bool) (s : string) : string * string :=
  match s with
  | String c r =>
      if Ascii.eqb c "-" || (allow_plus && Ascii.eqb c "+")
      then (String c EmptyString, r) else (EmptyString, s)
  | EmptyString => (EmptyString, s)
  end.

Definition number (s : string) : option (string * string) :=
  let (sg, s1) := sign false s in
  let (ip, s2) := digits s1 in
  match ip with
  | EmptyString => None
  | String d more =>
      if Ascii.eqb d "0" && negb (String.eqb more EmptyString) then None
      else
        let frac :=
          match s2 with
          | String "." r =>
              let (fp, s3) := digits r in
              if String.eqb fp EmptyString then None
              else Some ("." ++ fp, s3)
          | _ => Some (EmptyString, s2)
          end in
        match frac with
        | None => None
        | Some (fr, s3) =>
            match s3 with
            | String e r =>
                if Ascii.eqb e "e" || Ascii.eqb e "E" then
                  let (es, s4) := sign true r in
                  let (ed, s5) := digits s4 in
                  if String.eqb ed EmptyString then None
                  else Some (sg ++ ip ++ fr ++ String e (es ++ ed), s5)
                else Some (sg ++ ip ++ fr, s3)
            | EmptyString => Some (sg ++ ip ++ fr, s3)
            end
        end
  end.

Definition hexval (c : ascii) : option Z :=
  let n := byte_of c in
  if (48 <=? n) && (n <=? 57) then Some (n - 48)
  else if (97 <=? n) && (n <=? 102) then Some (n - 87)
  else if (65 <=? n) && (n <=? 70) then Some (n - 55)
  else None.

(** [getu4]: a backslash, the letter u and four hexadecimal digits. *)
Definition getu4 (s : string) : option (Z * string) :=
  match s with
  | String "\" (String "u" (String a (String b (String c (String d r))))) =>
      match hexval a, hexval b, hexval c, hexval d with
      | Some x, Some y, Some z, Some w => Some (4096 * x + 256 * y + 16 * z + w, r)
      | _, _, _, _ => None
      end
  | _ => None
  end.

Definition utf8_EncodeRune (r : Z) : string :=
  if r <? 128 then string_of_bytes [r]
  else if r <? 2048 then
    string_of_bytes [Z.lor 192 (Z.shiftr r 6); Z.lor 128 (Z.land r 63)]
  else if r <? 65536 then
    string_of_bytes [Z.lor 224 (Z.shiftr r 12);
                     Z.lor 128 (Z.land (Z.shiftr r 6) 63);
                     Z.lor 128 (Z.land r 63)]
  else
    string_of_bytes [Z.lor 240 (Z.shiftr r 18);
                     Z.lor 128 (Z.land (Z.shiftr r 12) 63);
                     Z.lor 128 (Z.land (Z.shiftr r 6) 63);
                     Z.lor 128 (Z.land r 63)].

Definition ReplacementChar : Z := 65533.
Definition IsSurrogate (r : Z) : bool := (55296 <=? r) && (r <? 57344).

Definition utf16_DecodeRune (r1 r2 : Z) : Z :=
  if (55296 <=? r1) && (r1 <? 56320) && (56320 <=? r2) && (r2 <? 57344)
  then Z.lor (Z.shiftl (r1 - 55296) 10) (r2 - 56320) + 65536
  else ReplacementChar.

Definition simple_escape (c : ascii) : option ascii :=
  if Ascii.eqb c dquote then Some dquote
  else if Ascii.eqb c "\" then Some "\"%char
  else if Ascii.eqb c "/" then Some "/"%char
  else if Ascii.eqb c "b" then Some (ascii_of 8)
  else if Ascii.eqb c "f" then Some (ascii_of 12)
  else if Ascii.eqb c "n" then Some (ascii_of 10)
  else if Ascii.eqb c "r" then Some (ascii_of 13)
  else if Ascii.eqb c "t" then Some (ascii_of 9)
  else None.

(** The text after an opening quote, up to the closing one, unquoted. *)
Fixpoint unquote (fuel : nat) (s : string) : option (string * string) :=
  match fuel with
  | O => None
  | S fuel' =>
      match s with
      | EmptyString => None
      | String c r =>
          if Ascii.eqb c dquote then Some (EmptyString, r)
          else if byte_of c <? 32 then None
          else if Ascii.eqb c "\" then
            match r with
            | String "u" _ =>
                match getu4 s with
                | None => None
                | Some (rr, r1) =>
                    let '(rune, rest) :=
                      if IsSurrogate rr then
                        match getu4 r1 with
                        | Some (rr1, r2) =>
                            let dec := utf16_DecodeRune rr rr1 in
                            if dec =? ReplacementChar then (ReplacementChar, r1)
                            else (dec, r2)
                        | None => (ReplacementChar, r1)
                        end
                      else (rr, r1) in
                    match unquote fuel' rest with
                    | Some (t, out) => Some (utf8_EncodeRune rune ++ t, out)
                    | None => None
                    end
                end
            | String e r1 =>
                match simple_escape e, unquote fuel' r1 with
                | Some x, Some (t, out) => Some (String x t, out)
                | _, _ => None
                end
            | EmptyString => None
            end
          else
            match unquote fuel' r with
            | Some (t, out) => Some (String c t, out)
            | None => None
            end
      end
  end.

(** Values, array elements and object members; [fuel] bounds the
    number of calls, and the text length is always enough. *)
Fixpoint parse_value (fuel : nat) (s : string) : option (value * string) :=
  match fuel with
  | O => None
  | S fuel' =>
      match skip_ws s with
      | EmptyString => None
      | String c r =>
          if Ascii.eqb c "{" then
            match skip_ws r with
            | String "}" r1 => Some (VMap [], r1)
            | _ => parse_members fuel' r []
            end
          else if Ascii.eqb c "[" then
            match skip_ws r with
            | String "]" r1 => Some (VSlice [], r1)
            | _ => parse_elems fuel' r
            end
          else if Ascii.eqb c dquote then
            match unquote (S (String.length r)) r with
            | Some (t, out) => Some (VString t, out)
            | None => None
            end
          else if Ascii.eqb c "t" then
            option_map (pair (VBool true)) (strip_prefix "rue" r)
          else if Ascii.eqb c "f" then
            option_map (pair (VBool false)) (strip_prefix "alse" r)
          else if Ascii.eqb c "n" then
            option_map (pair VNil) (strip_prefix "ull" r)
          else
            match number (String c r) with
            | Some (lit, out) => Some (VFloat64 lit, out)
            | None => None
            end
      end
  end
with parse_elems (fuel : nat) (s : string) : option (value * string) :=
  match fuel with
  | O => None
  | S fuel' =>
      match parse_value fuel' s with
      | None => None
      | Some (v, r) =>
          match skip_ws r with
          | String "]" r1 => Some (VSlice [v], r1)
          | String "," r1 =>
              match parse_elems fuel' r1 with
              | Some (VSlice vs, out) => Some (VSlice (v :: vs), out)
              | _ => None
              end
          | _ => None
          end
      end
  end
with parse_members (fuel : nat) (s : string) (acc : gomap)
     : option (value * string) :=
  match fuel with
  | O => None
  | S fuel' =>
      match skip_ws s with
      | String c r =>
          if negb (Ascii.eqb c dquote) then None
          else
            match unquote (S (String.length r)) r with
            | None => None
            | Some (k, r1) =>
                match skip_ws r1 with
                | String ":" r2 =>
                    match parse_value fuel' r2 with
                    | None => None
                    | Some (v, r3) =>
                        match skip_ws r3 with
                        | String "}" r4 => Some (VMap (map_set k v acc), r4)
                        | String "," r4 => parse_members fuel' r4 (map_set k v acc)
                        | _ => None
                        end
                    end
                | _ => None
                end
            end
      | EmptyString => None
      end
  end.

(** A whole text: one value, white space around it, nothing else. *)
Definition decode (data : string) : option value :=
  match parse_value (2 * String.length data + 2) data with
  | Some (v, r) =>
      match skip_ws r with
      | EmptyString => Some v
      | String _ _ => None
      end
  | None => None
  end.

(** [json.Unmarshal(data, &m)] for [var m map[string]interface{}] with
    the returned error dropped: [m] is left nil ([None]) unless the
    text is a JSON object. *)
Definition Unmarshal_map (data : string) : option gomap :=
  match decode data with
  | Some (VMap m) => Some m
  | _ => None
  end.

End json.

(** ** Results of library calls that return a value and an error *)

Inductive result (A : Type) : Type :=
| Ok (a : A)
| Err (msg : string).

Arguments Ok {A} a.
Arguments Err {A} msg.

(** ** net/http: headers, requests, responses *)

Module http.

Definition is_upper (c : ascii) : bool :=
  let n := byte_of c in (65 <=? n) && (n <=? 90).
Definition is_lower (c : ascii) : bool :=
  let n := byte_of c in (97 <=? n) && (n <=? 122).
Definition to_upper (c : ascii) : ascii :=
  if is_lower c then ascii_of (byte_of c - 32) else c.
Definition to_lower (c : ascii) : ascii :=
  if is_upper c then ascii_of (byte_of c + 32) else c.

(** The token characters of RFC 7230. *)
Definition is_token_byte (c : ascii) : bool :=
  is_upper c || is_lower c || json.is_digit c
  || existsb (Ascii.eqb c) (list_ascii_of_string "!#$%&'*+-.^_`|~").

Fixpoint canonical (upper : bool) (s : string) : string :=
  match s with
  | EmptyString => EmptyString
  | String c r =>
      String (if upper then to_upper c else to_lower c)
             (canonical (Ascii.eqb c "-") r)
  end.

(** [textproto.CanonicalMIMEHeaderKey]: a key with a byte outside the
    token set is left as it is. *)
Definition CanonicalMIMEHeaderKey (s : string) : string :=
  if forallb is_token_byte (list_ascii_of_string s) then canonical true s else s.

Definition Header : Type := list (string * list string).

Definition Header_Set (h : Header) (key val : string) : Header :=
  let k := CanonicalMIMEHeaderKey key in
  (k, [val]) :: filter (fun kv => negb (String.eqb (fst kv) k)) h.

Fixpoint Header_values (h : Header) (k : string) : list string :=
  match h with
  | [] => []
  | (k', vs) :: r => if String.eqb k' k then vs else Header_values r k
  end.

Definition Header_Get (h : Header) (key : string) : string :=
  match Header_values h (CanonicalMIMEHeaderKey key) with
  | v :: _ => v
  | [] => EmptyString
  end.

(** The body is [None] for a nil reader and [Some payload] for a
    buffer over the payload. *)
Record Request : Type := {
  Method : string;
  URL : string;
  ReqBody : option string;
  ReqHeader : Header
}.

Definition set_header (req : Request) (key val : string) : Request :=
  {| Method := Method req; URL := URL req; ReqBody := ReqBody req;
     ReqHeader := Header_Set (ReqHeader req) key val |}.

(** [Body] is what [ioutil.ReadAll(resp.Body)] gives. *)
Record Response : Type := {
  StatusCode : Z;
  Body : result string
}.

Definition StatusOK : Z := 200.

Record Transport : Type := {
  CipherSuites : list Z;
  PreferServerCipherSuites : bool;
  InsecureSkipVerify : bool;
  MinVersion : Z;
  MaxVersion : Z;
  Proxy : option string
}.

Record Client : Type := { transport : Transport }.

Definition validMethod (method : string) : bool :=
  negb (String.eqb method EmptyString)
  && forallb is_token_byte (list_ascii_of_string method).

End http.

(** ** golang.org/x/time/rate *)

Module rate.

(** A [Limit] is a number of events per second: [Inf], or one event
    every [d] nanoseconds for a positive [d]. *)
Inductive Limit : Type :=
| Inf
| PerNanos (d : Z).

Definition Every (interval : Z) : Limit :=
  if interval <=? 0 then Inf else PerNanos interval.

Record Limiter : Type := { limit : Limit; burst : Z }.

Definition NewLimiter (r : Limit) (b : Z) : Limiter :=
  {| limit := r; burst := b |}.

(** The bucket of a limiter: the credit it holds, counted in
    nanoseconds of refill, and the time of its last update. *)
Record Bucket : Type := { credit : Z; last : Z }.

Definition full (l : Limiter) : Bucket :=
  match limit l with
  | Inf => {| credit := 0; last := 0 |}
  | PerNanos d => {| credit := burst l * d; last := 0 |}
  end.

(** [reserveN(now, 1)]: the time at which a caller that starts to
    wait at [now] is let through, and the bucket afterwards. *)
Definition reserve (l : Limiter) (b : Bucket) (now : Z) : Z * Bucket :=
  match limit l with
  | Inf => (now, b)
  | PerNanos d =>
      let last' := Z.min now (last b) in
      let tokens := Z.min (burst l * d) (credit b + (now - last')) in
      let tokens' := tokens - d in
      let wait := if tokens' <? 0 then - tokens' else 0 in
      (now + wait, {| credit := tokens'; last := now |})
  end.

End rate.

(** ** float32 *)

Module f32.

Definition t : Type := spec_float.
Definition prec : Z := 24.
Definition emax : Z := 128.

Definition of_Z (n : Z) : t := binary_normalize prec emax n 0 false.
Definition mul (x y : t) : t := SFmul prec emax x y.
Definition geb (x y : t) : bool := SFleb y x.

(** A dyadic literal [m * 2^e]. *)
Definition dyadic (m e : Z) : t := binary_normalize prec emax m e false.

Definition min_int64 : Z := - 2 ^ 63.
Definition max_int64 : Z := 2 ^ 63 - 1.

(** Conversion to [int64] discards the fraction; outside the range of
    [int64] the Go specification leaves the result to the
    implementation, here [oor]. *)
Definition to_int64 (oor : Z) (x : t) : Z :=
  match x with
  | S754_zero _ => 0
  | S754_finite s m e =>
      let mag := if 0 <=? e then Z.shiftl (Z.pos m) e else Z.shiftr (Z.pos m) (- e) in
      let v := if s then - mag else mag in
      if (min_int64 <=? v) && (v <=? max_int64) then v else oor
  | S754_infinity _ | S754_nan => oor
  end.

End f32.

(** ** The world outside the client

    What the client reaches through its libraries and cannot decide by
    itself: the encoder and decoder of encoding/json, the URL parser,
    the limiter's blocking wait, the network, and the result of an
    out-of-range float conversion. *)

Class Runtime : Type := {
  Obj : Type;
  json_Marshal : Obj -> result string;
  json_Unmarshal : string -> option gomap;
  url_Parse : string -> error;
  limiter_Wait : rate.Limiter -> error;
  httpclient_Do : http.Client -> http.Request -> result http.Response;
  float_overflow : Z
}.

(** ** Effects of an operation: the requests it dispatched, in order,
    and how it ended *)

Definition IO (A : Type) : Type := (list http.Request * Outcome A)%type.

Definition ret {A} (a : A) : IO A := ([], Return a).
Definition panic {A} (msg : string) : IO A := ([], Panic msg).
Definition log_Fatal {A} (msg : string) : IO A := ([], Fatal msg).

Definition bind {A B} (m : IO A) (k : A -> IO B) : IO B :=
  match m with
  | (sent, Return a) => let (sent', o) := k a in ((sent ++ sent')%list, o)
  | (sent, Panic msg) => (sent, Panic msg)
  | (sent, Fatal msg) => (sent, Fatal msg)
  end.

Notation "x <- m ;; k" := (bind m (fun x => k))
  (at level 61, m at next level, right associativity).

Definition lift {A} (o : Outcome A) : IO A := ([], o).

Definition sent {A} (m : IO A) : list http.Request := fst m.
Definition outcome {A} (m : IO A) : Outcome A := snd m.

(** ** client.go *)

Definition BaseURL : string := "https://api.dns.constellix.com/".

Record Client : Type := {
  httpclient : http.Client;
  rateLimiter : option rate.Limiter;
  apiKey : string;
  secretKey : string;
  insecure : bool;
  proxyUrl : string
}.

Definition Option : Type := Client -> Client.

Definition Insecure (b : bool) : Option := fun client =>
  {| httpclient := httpclient client; rateLimiter := rateLimiter client;
     apiKey := apiKey client; secretKey := secretKey client;
     insecure := b; proxyUrl := proxyUrl client |}.

Definition ProxyUrl (pUrl : string) : Option := fun client =>
  {| httpclient := httpclient client; rateLimiter := rateLimiter client;
     apiKey := apiKey client; secretKey := secretKey client;
     insecure := insecure client; proxyUrl := pUrl |}.

Definition set_rateLimiter (rl : rate.Limiter) (client : Client) : Client :=
  {| httpclient := httpclient client; rateLimiter := Some rl;
     apiKey := apiKey client; secretKey := secretKey client;
     insecure := insecure client; proxyUrl := proxyUrl client |}.

Definition set_httpclient (h : http.Client) (client : Client) : Client :=
  {| httpclient := h; rateLimiter := rateLimiter client;
     apiKey := apiKey client; secretKey := secretKey client;
     insecure := insecure client; proxyUrl := proxyUrl client |}.

(** The empty struct literal a client starts from. *)
Definition zero_transport : http.Transport :=
  {| http.CipherSuites := []; http.PreferServerCipherSuites := false;
     http.InsecureSkipVerify := false; http.MinVersion := 0;
     http.MaxVersion := 0; http.Proxy := None |}.

(** The struct literal [initClient] starts from: the two keys, every
    other field at its zero value. *)
Definition new_client (apiKey secretKey : string) : Client :=
  {| httpclient := {| http.transport := zero_transport |};
     rateLimiter := None; apiKey := apiKey; secretKey := secretKey;
     insecure := false; proxyUrl := EmptyString |}.

Section WithRuntime.

Context {R : Runtime}.

(** [time.Duration(pInterval*1000)]: the product is a float32, the
    conversion yields a count of nanoseconds. *)
Definition interval_duration (pInterval : f32.t) : Z :=
  f32.to_int64 float_overflow (f32.mul pInterval (f32.of_Z 1000)).

Definition RequestInterval (pInterval : f32.t) : Option := fun client =>
  if f32.geb pInterval (f32.of_Z 0) then
    let rl := rate.NewLimiter (rate.Every (interval_duration pInterval)) 1 in
    set_rateLimiter rl client
  else client.

Definition useInsecureHTTPClient (insecure : bool) : http.Transport :=
  {| http.CipherSuites := [49171; 49172; 49191; 49199; 49200];
     http.PreferServerCipherSuites := true;
     http.InsecureSkipVerify := insecure;
     http.MinVersion := 770;
     http.MaxVersion := 771;
     http.Proxy := None |}.

Definition configProxy (c : Client) (transport : http.Transport)
  : Outcome http.Transport :=
  match url_Parse (proxyUrl c) with
  | Some err => Fatal err
  | None =>
      Return {| http.CipherSuites := http.CipherSuites transport;
                http.PreferServerCipherSuites := http.PreferServerCipherSuites transport;
                http.InsecureSkipVerify := http.InsecureSkipVerify transport;
                http.MinVersion := http.MinVersion transport;
                http.MaxVersion := http.MaxVersion transport;
                http.Proxy := Some (proxyUrl c) |}
  end.

Definition initClient (apiKey secretKey : string) (options : list Option)
  : Outcome Client :=
  let client :=
    fold_left (fun c option => option c) options (new_client apiKey secretKey) in
  let transport := useInsecureHTTPClient (insecure client) in
  if negb (String.eqb (proxyUrl client) EmptyString) then
    match configProxy client transport with
    | Return transport' =>
        Return (set_httpclient {| http.transport := transport' |} client)
    | Panic m => Panic m
    | Fatal m => Fatal m
    end
  else Return (set_httpclient {| http.transport := transport |} client).

Definition GetClient := initClient.

(** [http.NewRequest]: the method must be a token and the URL must
    parse; the request starts with no header. *)
Definition http_NewRequest (method url : string) (body : option string)
  : result http.Request :=
  let method := if String.eqb method EmptyString then "GET" else method in
  if negb (http.validMethod method) then Err "net/http: invalid method"
  else match url_Parse url with
       | Some err => Err err
       | None => Ok {| http.Method := method; http.URL := url;
                       http.ReqBody := body; http.ReqHeader := [] |}
       end.

Definition makeRequest (c : Client) (now : Z) (method endpoint payload : string)
  : result http.Request :=
  let r :=
    if String.eqb method "POST" || String.eqb method "PUT"
    then http_NewRequest method endpoint (Some payload)
    else http_NewRequest method endpoint None in
  match r with
  | Err err => Err err
  | Ok req =>
      let token := getToken now (apiKey c) (secretKey c) in
      let req := http.set_header req "Content-Type" "application/json" in
      let req := http.set_header req "x-cns-security-token" token in
      Ok req
  end.

(** *** The error normalizers *)

(** [data["errors"]] on the map left by the decoder, nil or not. *)
Definition index (data : option gomap) (key : string) : value :=
  match data with
  | Some m => map_index m key
  | None => VNil
  end.

(** The loop [allErrs = allErrs + val.(string)]: the assertion panics
    at the first element that is not a string. *)
Fixpoint concat_errors (errors : list value) (allErrs : string)
  : Outcome string :=
  match errors with
  | [] => Return allErrs
  | VString s :: rest => concat_errors rest (allErrs ++ s)
  | _ :: _ => Panic "interface conversion: interface {} is not string"
  end.

Definition checkForErrors (resp : http.Response) : Outcome error :=
  if negb (http.StatusCode resp =? http.StatusOK) then
    match http.Body resp with
    | Err err => Fatal err
    | Ok bodyString =>
        let data := json_Unmarshal bodyString in
        match index data "errors" with
        | VSlice errors =>
            match concat_errors errors EmptyString with
            | Return allErrs => Return (fmt_Errorf_s allErrs)
            | Panic m => Panic m
            | Fatal m => Fatal m
            end
        | _ => Panic "interface conversion: interface {} is not []interface {}"
        end
    end
  else Return None.

Definition checkForErrorsChecks (resp : http.Response) : Outcome error :=
  if negb (http.StatusCode resp =? http.StatusOK)
     && negb (http.StatusCode resp =? 201)
     && negb (http.StatusCode resp =? 202)
  then
    match http.Body resp with
    | Err err => Fatal err
    | Ok bodyString => Return (fmt_Errorf_s bodyString)
    end
  else Return None.

(** *** The four operations *)

(** The block each operation opens with: the URL to call, and the
    flag that is set when the endpoint is used as it is. *)
Definition resolve (endpoint : string) : string * bool :=
  let urlArr := strings_Split endpoint "/" in
  if (2 <? List.length urlArr)%nat
     && String.eqb (nth 2 urlArr EmptyString) "api.sonar.constellix.com"
  then (endpoint, true)
  else (BaseURL ++ endpoint, false).

Definition nil_dereference : string :=
  "runtime error: invalid memory address or nil pointer dereference".

Definition Do (c : Client) (req : http.Request) : IO (result http.Response) :=
  ([req], Return (httpclient_Do (httpclient c) req)).

Definition Save (c : Client) (now : Z) (obj : Obj) (endpoint : string)
  : IO (option http.Response * error) :=
  match json_Marshal obj with
  | Err err => log_Fatal err
  | Ok jsonPayload =>
      let (url, flag) := resolve endpoint in
      match makeRequest c now "POST" url jsonPayload with
      | Err err1 => ret (None, Some err1)
      | Ok req =>
          match rateLimiter c with
          | None => panic nil_dereference
          | Some rl =>
              match limiter_Wait rl with
              | Some err => ret (None, Some err)
              | None =>
                  r <- Do c req ;;
                  match r with
                  | Err err2 => ret (None, Some err2)
                  | Ok resp =>
                      if negb flag then
                        e <- lift (checkForErrors resp) ;; ret (Some resp, e)
                      else
                        e <- lift (checkForErrorsChecks resp) ;; ret (Some resp, e)
                  end
              end
          end
      end
  end.

(** The guarded gate of the other three operations: the error of the
    wait, or nil when there is no limiter. *)
Definition gate (c : Client) : error :=
  match rateLimiter c with
  | Some rl => limiter_Wait rl
  | None => None
  end.

Definition GetbyId (c : Client) (now : Z) (endpoint : string)
  : IO (option http.Response * error) :=
  let (url, flag) := resolve endpoint in
  match makeRequest c now "GET" url EmptyString with
  | Err err => ret (None, Some err)
  | Ok req =>
      match gate c with
      | Some err => ret (None, Some err)
      | None =>
          r <- Do c req ;;
          match r with
          | Err err1 => ret (None, Some err1)
          | Ok resp =>
              if negb flag then
                e <- lift (checkForErrors resp) ;; ret (Some resp, e)
              else
                e <- lift (checkForErrorsChecks resp) ;; ret (Some resp, e)
          end
      end
  end.

Definition DeletebyId (c : Client) (now : Z) (endpoint : string) : IO error :=
  let url := fst (resolve endpoint) in
  match makeRequest c now "DELETE" url EmptyString with
  | Err err => ret (Some err)
  | Ok req =>
      match gate c with
      | Some err => ret (Some err)
      | None =>
          r <- Do c req ;;
          match r with
          | Err err1 => ret (Some err1)
          | Ok resp => lift (checkForErrorsChecks resp)
          end
      end
  end.

Definition UpdatebyID (c : Client) (now : Z) (obj : Obj) (endpoint : string)
  : IO (option http.Response * error) :=
  match json_Marshal obj with
  | Err err => log_Fatal err
  | Ok jsonPayload =>
      let (url, flag) := resolve endpoint in
      match makeRequest c now "PUT" url jsonPayload with
      | Err err1 => ret (None, Some err1)
      | Ok req =>
          match gate c with
          | Some err => ret (None, Some err)
          | None =>
              r <- Do c req ;;
              match r with
              | Err err2 => ret (None, Some err2)
              | Ok resp =>
                  if negb flag then
                    e <- lift (checkForErrors resp) ;; ret (Some resp, e)
                  else
                    e <- lift (checkForErrorsChecks resp) ;; ret (Some resp, e)
              end
          end
      end
  end.

End WithRuntime.

(** ** Shapes the properties speak in *)

(** The bytes a standard base64 text is made of. *)
Definition is_base64_byte (c : ascii) : bool :=
  http.is_upper c || http.is_lower c || json.is_digit c
  || Ascii.eqb c "+" || Ascii.eqb c "/" || Ascii.eqb c "=".

Definition json_content : string := "application/json".

(** The request [makeRequest] hands back when the URL parses. *)
Definition signed_request (c : Client) (now : Z) (method url : string)
  (body : option string) : http.Request :=
  http.set_header
    (http.set_header
       {| http.Method := method; http.URL := url; http.ReqBody := body;
          http.ReqHeader := [] |}
       "Content-Type" json_content)
    "x-cns-security-token" (getToken now (apiKey c) (secretKey c)).

(** The normalizer an operation applies for a given flag, and the
    pair an operation returns around its verdict. *)
Definition normalize {R : Runtime} (secondary : bool) (resp : http.Response)
  : Outcome error :=
  if secondary then checkForErrorsChecks resp else checkForErrors resp.

Definition with_response (resp : http.Response) (o : Outcome error)
  : Outcome (option http.Response * error) :=
  match o with
  | Return e => Return (Some resp, e)
  | Panic m => Panic m
  | Fatal m => Fatal m
  end.

(** ** A reference world

    The reference decoder, a URL parser that refuses control bytes, a
    limiter whose wait is never cancelled, the conversion overflow of
    amd64, and a server given as a function.  The objects to encode are
    integers, which always encode, and channels, which never do. *)

Inductive sample_obj : Type :=
| AnInt (i : Z)
| AChan.

Definition sample_Marshal (o : sample_obj) : result string :=
  match o with
  | AnInt i => Ok (strconv_FormatInt10 i)
  | AChan => Err "json: unsupported type: chan int"
  end.

Definition is_ctl (c : ascii) : bool :=
  let n := byte_of c in (n <? 32) || (n =? 127).

Definition sample_url_Parse (u : string) : error :=
  if existsb is_ctl (list_ascii_of_string u)
  then Some "net/url: invalid control character in URL"
  else None.

Definition reference_runtime
  (server : http.Request -> result http.Response) : Runtime :=
  {| Obj := sample_obj;
     json_Marshal := sample_Marshal;
     json_Unmarshal := json.Unmarshal_map;
     url_Parse := sample_url_Parse;
     limiter_Wait := fun _ => None;
     httpclient_Do := fun _ req => server req;
     float_overflow := f32.min_int64 |}.

(** A server that answers every request with one status and body. *)
Definition answers (status : Z) (body : string)
  : http.Request -> result http.Response :=
  fun _ => Ok {| http.StatusCode := status; http.Body := Ok body |}.

(** A text between double quotes. *)
Definition quoted (s : string) : string :=
  String dquote (s ++ String dquote EmptyString).

(** ** Notions the specification speaks in *)

Definition sonar_host : string := "api.sonar.constellix.com".

(** The third segment of an endpoint cut at its slashes, if it has one. *)
Definition third_segment (endpoint : string) : option string :=
  nth_error (strings_Split endpoint "/") 2.

(** The strings of an [errors] field that holds a sequence of strings;
    [None] for any other content of the decoded body. *)
Fixpoint all_strings (vs : list value) : option (list string) :=
  match vs with
  | [] => Some []
  | VString s :: r => option_map (cons s) (all_strings r)
  | _ :: _ => None
  end.

Definition errors_field (data : option gomap) : option (list string) :=
  match data with
  | None => None
  | Some m =>
      match map_index m "errors" with
      | VSlice vs => all_strings vs
      | _ => None
      end
  end.

Module Spec.

(** The host component of an endpoint as the specification reads it,
    after RFC 3986: an optional scheme and colon, two slashes, then
    the authority up to the next slash, question mark or hash; the
    host is the authority without user information and port.  An
    endpoint that does not start this way has no host component. *)

Fixpoint take_until (stop : ascii -> bool) (s : string) : string * string :=
  match s with
  | EmptyString => (EmptyString, EmptyString)
  | String c r =>
      if stop c then (EmptyString, s)
      else let (a, b) := take_until stop r in (String c a, b)
  end.

Definition is_scheme_byte (c : ascii) : bool :=
  http.is_upper c || http.is_lower c || json.is_digit c
  || Ascii.eqb c "+" || Ascii.eqb c "-" || Ascii.eqb c ".".

Definition after_scheme (endpoint : string) : string :=
  let (scheme, r) := take_until (fun c => negb (is_scheme_byte c)) endpoint in
  match scheme, r with
  | String _ _, String ":" r' => r'
  | _, _ => endpoint
  end.

(** What follows the last at-sign, or the whole text. *)
Fixpoint after_userinfo (s : string) : string :=
  match s with
  | EmptyString => EmptyString
  | String c r =>
      if existsb (Ascii.eqb "@") (list_ascii_of_string r) then after_userinfo r
      else if Ascii.eqb c "@" then r else s
  end.

Definition host_component (endpoint : string) : option string :=
  match after_scheme endpoint with
  | String "/" (String "/" r) =>
      let (authority, _) :=
        take_until (fun c => Ascii.eqb c "/" || Ascii.eqb c "?" || Ascii.eqb c "#") r in
      Some (fst (take_until (Ascii.eqb ":") (after_userinfo authority)))
  | _ => None
  end.

(** A byte that may stand in a plain host: none of the delimiters of
    an authority. *)
Definition is_host_byte (c : ascii) : bool :=
  negb (Ascii.eqb c "/" || Ascii.eqb c "?" || Ascii.eqb c "#"
        || Ascii.eqb c "@" || Ascii.eqb c ":").

(** The resolution rule of the specification: verbatim and secondary
    when the host component is the secondary host, the base URL in
    front and primary otherwise. *)
Definition resolve_by_host (endpoint : string) : string * bool :=
  match host_component endpoint with
  | Some h =>
      if String.eqb h sonar_host then (endpoint, true)
      else (BaseURL ++ endpoint, false)
  | None => (BaseURL ++ endpoint, false)
  end.

End Spec.

(** ** Construction, as a caller writes it *)

(** The client after the options have run, before the transport is
    built. *)
Definition configured (apiKey secretKey : string) (options : list Option)
  : Client :=
  fold_left (fun c option => option c) options (new_client apiKey secretKey).

(** The three options a caller can name. *)
Inductive option_spec : Type :=
| WithInsecure (b : bool)
| WithProxyUrl (u : string)
| WithRequestInterval (p : f32.t).

Definition option_of {R : Runtime} (o : option_spec) : Option :=
  match o with
  | WithInsecure b => Insecure b
  | WithProxyUrl u => ProxyUrl u
  | WithRequestInterval p => RequestInterval p
  end.

Definition same_kind (o1 o2 : option_spec) : bool :=
  match o1, o2 with
  | WithInsecure _, WithInsecure _ => true
  | WithProxyUrl _, WithProxyUrl _ => true
  | WithRequestInterval _, WithRequestInterval _ => true
  | _, _ => false
  end.

(** An option that installs a gate: an interval that compares at least
    zero. *)
Definition installs_gate (o : option_spec) : bool :=
  match o with
  | WithRequestInterval p => f32.geb p (f32.of_Z 0)
  | _ => false
  end.

(** strconv.ParseInt in base 10, as far as the texts [FormatInt] writes. *)
Definition strconv_ParseInt10 (s : string) : option Z :=
  option_map Z.of_int (DecimalString.NilZero.int_of_string s).

(** ** The operations after the request is built *)

(** What an operation does with a request once the gate has let it
    through: dispatch it, hand back a transport error as it is, or the
    answer with the verdict of the normalizer. *)
Definition dispatched {R : Runtime} (c : Client) (secondary : bool)
  (req : http.Request) : IO (option http.Response * error) :=
  ([req],
   match httpclient_Do (httpclient c) req with
   | Err err => Return (None, Some err)
   | Ok resp => with_response resp (normalize secondary resp)
   end).

(** A status the classification counts as success. *)
Definition success_status (secondary : bool) (status : Z) : bool :=
  if secondary then (status =? 200) || (status =? 201) || (status =? 202)
  else status =? 200.

Definition dns_host : string := "api.dns.constellix.com".

(** How often a byte occurs in a text. *)
Fixpoint count (c : ascii) (s : string) : nat :=
  match s with
  | EmptyString => O
  | String x r => if Ascii.eqb x c then S (count c r) else count c r
  end.

(** A server that cannot be reached. *)
Definition unreachable : http.Request -> result http.Response :=
  fun _ => Err "dial tcp: connection refused".

(** The intervals of the examples: half a second and minus one. *)
Definition half_second : f32.t := f32.dyadic 1 (-1).
Definition minus_one : f32.t := f32.of_Z (-1).

(** The third segment of a text cut at its slashes, said without
    cutting: the text is two slash-free segments, a slash after each,
    then [seg], which is slash-free and either ends the text or is
    followed by a slash. *)
Definition third_segment_is (endpoint seg : string) : Prop :=
  exists a b,
    occurs "/" a = false /\ occurs "/" b = false /\ occurs "/" seg = false
    /\ (endpoint = a ++ "/" ++ b ++ "/" ++ seg
        \/ exists rest, endpoint = a ++ "/" ++ b ++ "/" ++ seg ++ "/" ++ rest).

(* ================================================================== *)
(** * Part II: properties *)
(* ================================================================== *)

(** ** Test vectors for the library models *)

Example base64_rfc4648 :
  map (fun s => base64.StdEncoding_EncodeToString (bytes_of s))
      ["f"; "fo"; "foo"; "foob"; "fooba"; "foobar"]
  = ["Zg=="; "Zm8="; "Zm9v"; "Zm9vYg=="; "Zm9vYmE="; "Zm9vYmFy"].
Proof. vm_compute. reflexivity. Qed.

Example sha1_fips180_abc :
  hex (sha1.Sum (bytes_of "abc")) = "a9993e364706816aba3e25717850c26c9cd0d89d".
Proof. vm_compute. reflexivity. Qed.

Example sha1_fips180_two_blocks :
  hex (sha1.Sum (bytes_of "abcdbcdecdefdefgefghfghighijhijkijkljklmklmnlmnomnopnopq"))
  = "84983e441c3bd26ebaae4aa1f95129e5e54670f1".
Proof. vm_compute. reflexivity. Qed.

Example hmac_rfc2202_case2 :
  hex (hmac.sha1_Sum (bytes_of "Jefe") (bytes_of "what do ya want for nothing?"))
  = "effcdf6ae5eb2fa2d27416d5f184df9c259a7c79".
Proof. vm_compute. reflexivity. Qed.

Example hmac_rfc2202_case6 :
  hex (hmac.sha1_Sum (repeat 170 80)
         (bytes_of "Test Using Larger Than Block-Size Key - Hash Key First"))
  = "aa4ae5e15272d00e95705637ce8a3b55ed402112".
Proof. vm_compute. reflexivity. Qed.

Example decode_errors_body :
  json.Unmarshal_map
    ("{" ++ quoted "errors" ++ ":[" ++ quoted "bad" ++ "," ++ quoted "thing" ++ "]}")
  = Some [("errors", VSlice [VString "bad"; VString "thing"])].
Proof. vm_compute. reflexivity. Qed.

Example decode_rejects :
  map json.Unmarshal_map ["not json"; "[1,2]"; "null"; "{"; "{} x"; "01"]
  = [None; None; None; None; None; None].
Proof. vm_compute. reflexivity. Qed.

(** ** Strings *)

Lemma append_empty_r (s : string) : s ++ EmptyString = s.
Proof. induction s as [|c s IH]; simpl; [reflexivity | now rewrite IH]. Qed.

Lemma append_assoc3 (a b c : string) : (a ++ b) ++ c = a ++ b ++ c.
Proof. induction a as [|x a IH]; simpl; [reflexivity | now rewrite IH]. Qed.

Lemma concat_cons (x : string) (xs : list string) :
  String.concat EmptyString (x :: xs) = x ++ String.concat EmptyString xs.
Proof.
  destruct xs as [|y ys]; simpl; [now rewrite append_empty_r | reflexivity].
Qed.

(** A text is determined by what follows its last separator. *)
Lemma last_field_unique (sep : ascii) (x y a b : string) :
  occurs sep a = false -> occurs sep b = false ->
  x ++ String sep a = y ++ String sep b -> a = b.
Proof.
  intros Ha Hb. revert y.
  induction x as [|c x IH]; intros [|d y]; simpl; intros H.
  - now injection H.
  - injection H as Hc Hr. subst a. exfalso.
    clear - Ha. induction y as [|e y IHy]; simpl in Ha.
    + now rewrite Ascii.eqb_refl in Ha.
    + apply orb_false_iff in Ha. tauto.
  - injection H as Hc Hr. subst b. exfalso.
    clear - Hb. induction x as [|e x IHx]; simpl in Hb.
    + now rewrite Ascii.eqb_refl in Hb.
    + apply orb_false_iff in Hb. tauto.
  - injection H as _ Hr. now apply IH with y.
Qed.

(** ** Decimal rendering *)

Lemma uint_digits_no_colon (d : Decimal.uint) :
  occurs ":" (DecimalString.NilEmpty.string_of_uint d) = false.
Proof. induction d; simpl; auto. Qed.

Lemma nilzero_digits_no_colon (d : Decimal.uint) :
  occurs ":" (DecimalString.NilZero.string_of_uint d) = false.
Proof.
  destruct d; [reflexivity | exact (uint_digits_no_colon _) ..].
Qed.

Lemma FormatInt10_no_colon (i : Z) : occurs ":" (strconv_FormatInt10 i) = false.
Proof.
  unfold strconv_FormatInt10.
  destruct i as [|p|p]; cbn [Z.to_int DecimalString.NilZero.string_of_int occurs].
  - reflexivity.
  - apply nilzero_digits_no_colon.
  - rewrite nilzero_digits_no_colon. reflexivity.
Qed.

Lemma to_int_not_nil (i : Z) :
  Z.to_int i <> Decimal.Pos Decimal.Nil /\ Z.to_int i <> Decimal.Neg Decimal.Nil.
Proof.
  destruct i as [|p|p]; simpl; split; try discriminate;
    intros H; injection H as H; now apply DecimalPos.Unsigned.to_uint_nonnil in H.
Qed.

Lemma FormatInt10_inj (i j : Z) :
  strconv_FormatInt10 i = strconv_FormatInt10 j -> i = j.
Proof.
  unfold strconv_FormatInt10. intros H.
  apply DecimalZ.to_int_inj.
  destruct (to_int_not_nil i) as [Hi1 Hi2], (to_int_not_nil j) as [Hj1 Hj2].
  pose proof (DecimalString.NilZero.isi _ Hi1 Hi2) as Ei.
  pose proof (DecimalString.NilZero.isi _ Hj1 Hj2) as Ej.
  rewrite H in Ei. rewrite Ei in Ej. now injection Ej.
Qed.

(** ** The token generator *)

Section Token.

Variables (apiKey secretKey : string).

Lemma getToken_format (now : Z) :
  let t := strconv_FormatInt10 (Z.quot now Millisecond) in
  getToken now apiKey secretKey
  = apiKey ++ ":"
      ++ base64.StdEncoding_EncodeToString
           (hmac.sha1_Sum (bytes_of secretKey) (bytes_of t))
      ++ ":" ++ t.
Proof. reflexivity. Qed.

Lemma getToken_last_field (now : Z) :
  exists prefix,
    getToken now apiKey secretKey
    = prefix ++ String ":" (strconv_FormatInt10 (Z.quot now Millisecond)).
Proof.
  eexists. rewrite getToken_format. cbv zeta.
  rewrite <- (append_assoc3 apiKey), <- append_assoc3. reflexivity.
Qed.

Lemma getToken_determines_millis (now now' : Z) :
  getToken now apiKey secretKey = getToken now' apiKey secretKey ->
  Z.quot now Millisecond = Z.quot now' Millisecond.
Proof.
  intros H.
  destruct (getToken_last_field now) as [p Hp].
  destruct (getToken_last_field now') as [p' Hp'].
  rewrite Hp, Hp' in H.
  apply last_field_unique in H; auto using FormatInt10_no_colon.
  now apply FormatInt10_inj.
Qed.

End Token.

(** The signature field: 28 bytes of the base64 alphabet, for the 20
    bytes of a SHA-1 digest. *)

Lemma enc_alphabet (i : Z) : is_base64_byte (base64.enc i) = true.
Proof.
  unfold base64.enc.
  change 63 with (Z.ones 6). rewrite Z.land_ones by lia.
  pose proof (Z.mod_pos_bound i (2 ^ 6) ltac:(lia)) as Hk.
  remember (Z.to_nat (i mod 2 ^ 6)) as n eqn:En.
  assert (Hn : (n < 64)%nat) by lia. clear En Hk.
  do 64 (destruct n as [|n]; [reflexivity|]). lia.
Qed.

Lemma encode_alphabet (src : list Z) :
  all_bytes is_base64_byte (base64.encode src) = true.
Proof.
  assert (H : forall n (l : list Z), (List.length l <= n)%nat ->
                all_bytes is_base64_byte (base64.encode l) = true).
  { induction n as [|n IH]; intros l Hl.
    - destruct l; [reflexivity | simpl in Hl; lia].
    - destruct l as [|a [|b [|c rest]]]; cbn [base64.encode all_bytes];
        rewrite ?enc_alphabet; try reflexivity.
      apply IH. cbn [List.length] in Hl. lia. }
  now apply H with (List.length src).
Qed.

Lemma sha1_Sum_length (msg : list Z) : List.length (sha1.Sum msg) = 20%nat.
Proof.
  unfold sha1.Sum.
  destruct (sha1.blocks _ _ _) as [[[[h0 h1] h2] h3] h4]. reflexivity.
Qed.

Lemma encode_digest_length (digest : list Z) :
  List.length digest = 20%nat ->
  String.length (base64.encode digest) = 28%nat.
Proof.
  intros H.
  do 20 (destruct digest as [|? digest]; [discriminate H|]).
  destruct digest; [reflexivity | discriminate H].
Qed.

Lemma getToken_signature (apiKey secretKey : string) (now : Z) :
  exists sig,
    getToken now apiKey secretKey
    = apiKey ++ ":" ++ sig ++ ":" ++ strconv_FormatInt10 (Z.quot now Millisecond)
    /\ String.length sig = 28%nat
    /\ all_bytes is_base64_byte sig = true.
Proof.
  eexists. split; [apply getToken_format|]. split.
  - apply encode_digest_length, sha1_Sum_length.
  - apply encode_alphabet.
Qed.

(** C8. For every pair of keys and every reading [now] of the clock in
    nanoseconds, the token is the key, a colon, the standard base64 text
    of the HMAC-SHA1 of the decimal millisecond timestamp under the
    secret, a colon, and that timestamp; and tokens generated at two
    different milliseconds differ. *)
Theorem C8_token_format_and_freshness (apiKey secretKey : string) (now : Z) :
  let t := strconv_FormatInt10 (Z.quot now Millisecond) in
  getToken now apiKey secretKey
  = apiKey ++ ":"
      ++ base64.StdEncoding_EncodeToString
           (hmac.sha1_Sum (bytes_of secretKey) (bytes_of t))
      ++ ":" ++ t
  /\ forall now' : Z,
       Z.quot now Millisecond <> Z.quot now' Millisecond ->
       getToken now apiKey secretKey <> getToken now' apiKey secretKey.
Proof.
  split.
  - apply getToken_format.
  - intros now' Hms Heq. apply Hms.
    now apply getToken_determines_millis with apiKey secretKey.
Qed.

(** The claim at one key pair and two clock readings one millisecond
    apart. *)
Lemma C8_token_witness :
  getToken 1700000000123456789 "key" "secret"
  = "key:wM/x5OtJkw9gpeIAD/C+ySgHcak=:1700000000123"
  /\ getToken 1700000000123456789 "key" "secret"
     <> getToken 1700000000124456789 "key" "secret".
Proof.
  destruct (C8_token_format_and_freshness "key" "secret" 1700000000123456789)
    as [Hfmt Hfresh].
  split.
  - rewrite Hfmt. vm_compute. reflexivity.
  - apply Hfresh. vm_compute. discriminate.
Defined.

(** ** The error normalizers *)

Lemma all_strings_map (ss : list string) : all_strings (map VString ss) = Some ss.
Proof. induction ss as [|s ss IH]; simpl; [reflexivity | now rewrite IH]. Qed.

Lemma concat_errors_strings (vs : list value) (ss : list string) (acc : string) :
  all_strings vs = Some ss ->
  concat_errors vs acc = Return (acc ++ String.concat EmptyString ss).
Proof.
  revert ss acc. induction vs as [|v vs IH]; intros ss acc H.
  - injection H as <-. simpl. now rewrite append_empty_r.
  - destruct v; try discriminate. simpl in H.
    destruct (all_strings vs) as [ts|] eqn:E; try discriminate.
    injection H as <-. simpl concat_errors.
    rewrite (IH ts) by reflexivity.
    now rewrite concat_cons, append_assoc3.
Qed.

Lemma concat_errors_not_strings (vs : list value) (acc : string) :
  all_strings vs = None -> exists msg, concat_errors vs acc = Panic msg.
Proof.
  revert acc. induction vs as [|v vs IH]; intros acc H; [discriminate|].
  destruct v; simpl; eauto.
  simpl in H. destruct (all_strings vs) eqn:E; [discriminate|]. now apply IH.
Qed.

Section Normalizers.

Context {R : Runtime}.
Variable resp : http.Response.

Lemma checkForErrors_ok :
  http.StatusCode resp = 200 -> checkForErrors resp = Return None.
Proof.
  intros H. unfold checkForErrors, http.StatusOK. rewrite H. reflexivity.
Qed.

Lemma checkForErrors_shaped (body : string) (ss : list string) :
  http.StatusCode resp <> 200 ->
  http.Body resp = Ok body ->
  errors_field (json_Unmarshal body) = Some ss ->
  checkForErrors resp = Return (Some (String.concat EmptyString ss)).
Proof.
  intros Hst Hb Hf. unfold checkForErrors, http.StatusOK.
  apply Z.eqb_neq in Hst. rewrite Hst, Hb. cbn [negb].
  unfold errors_field in Hf. unfold index.
  destruct (json_Unmarshal body) as [m|]; [|discriminate].
  destruct (map_index m "errors"); try discriminate.
  now rewrite (concat_errors_strings _ _ _ Hf).
Qed.

Lemma checkForErrors_unshaped (body : string) :
  http.StatusCode resp <> 200 ->
  http.Body resp = Ok body ->
  errors_field (json_Unmarshal body) = None ->
  exists msg, checkForErrors resp = Panic msg.
Proof.
  intros Hst Hb Hf. unfold checkForErrors, http.StatusOK.
  apply Z.eqb_neq in Hst. rewrite Hst, Hb. cbn [negb].
  unfold errors_field in Hf. unfold index.
  destruct (json_Unmarshal body) as [m|]; [|eauto].
  destruct (map_index m "errors"); eauto.
  destruct (concat_errors_not_strings _ EmptyString Hf) as [msg ->]. eauto.
Qed.

Lemma checkForErrors_nil_only_on_200 :
  checkForErrors resp = Return None -> http.StatusCode resp = 200.
Proof.
  unfold checkForErrors, http.StatusOK.
  destruct (Z.eqb_spec (http.StatusCode resp) 200) as [E|_]; [easy|].
  cbn [negb]. destruct (http.Body resp); [|discriminate].
  destruct (index _ _); try discriminate.
  destruct (concat_errors _ _); discriminate.
Qed.

Lemma checkForErrorsChecks_ok :
  http.StatusCode resp = 200 \/ http.StatusCode resp = 201
  \/ http.StatusCode resp = 202 ->
  checkForErrorsChecks resp = Return None.
Proof.
  unfold checkForErrorsChecks, http.StatusOK.
  intros [-> | [-> | ->]]; reflexivity.
Qed.

Lemma checkForErrorsChecks_failed (body : string) :
  ~ (http.StatusCode resp = 200 \/ http.StatusCode resp = 201
     \/ http.StatusCode resp = 202) ->
  http.Body resp = Ok body ->
  checkForErrorsChecks resp = Return (Some body).
Proof.
  intros Hst Hb. unfold checkForErrorsChecks, http.StatusOK.
  destruct (Z.eqb_spec (http.StatusCode resp) 200); [tauto|].
  destruct (Z.eqb_spec (http.StatusCode resp) 201); [tauto|].
  destruct (Z.eqb_spec (http.StatusCode resp) 202); [tauto|].
  cbn. now rewrite Hb.
Qed.

End Normalizers.

(** C6. Under the primary policy the error is nil exactly when the
    status is 200; and when a failing response carries a body that
    decodes to an object whose [errors] field is a sequence of strings,
    the error message is those strings concatenated in order. *)
Theorem C6_primary_policy {R : Runtime} (resp : http.Response) :
  (checkForErrors resp = Return None <-> http.StatusCode resp = 200)
  /\ forall (body : string) (m : gomap) (errs : list string),
       http.StatusCode resp <> 200 ->
       http.Body resp = Ok body ->
       json_Unmarshal body = Some m ->
       map_index m "errors" = VSlice (map VString errs) ->
       checkForErrors resp = Return (Some (String.concat EmptyString errs)).
Proof.
  split.
  - split; [apply checkForErrors_nil_only_on_200 | apply checkForErrors_ok].
  - intros body m errs Hst Hb Hm He.
    apply checkForErrors_shaped with body; auto.
    unfold errors_field. rewrite Hm, He. apply all_strings_map.
Qed.

(** The example of the specification: status 400 with the two errors
    bad and thing, decoded by the reference decoder. *)
Lemma C6_primary_policy_witness :
  let R := reference_runtime (answers 400 EmptyString) in
  checkForErrors
    {| http.StatusCode := 400;
       http.Body := Ok ("{" ++ quoted "errors" ++ ":[" ++ quoted "bad" ++ ","
                          ++ quoted "thing" ++ "]}") |}
  = Return (Some "badthing").
Proof.
  intros R.
  apply (proj2 (C6_primary_policy (R := R)
                  {| http.StatusCode := 400;
                     http.Body := Ok ("{" ++ quoted "errors" ++ ":[" ++ quoted "bad"
                                        ++ "," ++ quoted "thing" ++ "]}") |})
           ("{" ++ quoted "errors" ++ ":[" ++ quoted "bad" ++ ","
              ++ quoted "thing" ++ "]}")
           [("errors", VSlice [VString "bad"; VString "thing"])]
           ["bad"; "thing"]);
    vm_compute; (discriminate || reflexivity).
Defined.

(** C7. Under the secondary policy the error is nil exactly when the
    status is 200, 201 or 202; for any other status the error message
    is the body text as it was read. *)
Theorem C7_secondary_policy (resp : http.Response) :
  (checkForErrorsChecks resp = Return None
   <-> http.StatusCode resp = 200 \/ http.StatusCode resp = 201
       \/ http.StatusCode resp = 202)
  /\ forall body : string,
       ~ (http.StatusCode resp = 200 \/ http.StatusCode resp = 201
          \/ http.StatusCode resp = 202) ->
       http.Body resp = Ok body ->
       checkForErrorsChecks resp = Return (Some body).
Proof.
  split.
  - split; [|apply checkForErrorsChecks_ok].
    intros H.
    destruct (Z.eq_dec (http.StatusCode resp) 200); [tauto|].
    destruct (Z.eq_dec (http.StatusCode resp) 201); [tauto|].
    destruct (Z.eq_dec (http.StatusCode resp) 202); [tauto|].
    exfalso. destruct (http.Body resp) as [body|e] eqn:Hb.
    + rewrite (checkForErrorsChecks_failed resp body) in H; [discriminate|tauto|auto].
    + unfold checkForErrorsChecks, http.StatusOK in H.
      destruct (Z.eqb_spec (http.StatusCode resp) 200); [tauto|].
      destruct (Z.eqb_spec (http.StatusCode resp) 201); [tauto|].
      destruct (Z.eqb_spec (http.StatusCode resp) 202); [tauto|].
      cbn in H. rewrite Hb in H. discriminate.
  - apply checkForErrorsChecks_failed.
Qed.

(** The example of the specification: status 500 with a plain body. *)
Lemma C7_secondary_policy_witness :
  checkForErrorsChecks
    {| http.StatusCode := 500; http.Body := Ok "server exploded" |}
  = Return (Some "server exploded").
Proof.
  apply (proj2 (C7_secondary_policy
                  {| http.StatusCode := 500; http.Body := Ok "server exploded" |})
           "server exploded");
    [cbn; lia | reflexivity].
Defined.

(** C1. A primary-classified response with a status other than 200
    whose body does not decode to an object with an [errors] field that
    is a sequence of strings makes the primary normalizer panic: the
    caller gets no error value. *)
Theorem C1_primary_normalizer_panics {R : Runtime}
  (resp : http.Response) (body : string) :
  http.StatusCode resp <> 200 ->
  http.Body resp = Ok body ->
  errors_field (json_Unmarshal body) = None ->
  exists msg, checkForErrors resp = Panic msg.
Proof. apply checkForErrors_unshaped. Qed.

(** Status 400 with a body that is not JSON. *)
Lemma C1_primary_normalizer_panics_witness :
  let R := reference_runtime (answers 400 "not json") in
  exists msg,
    checkForErrors {| http.StatusCode := 400; http.Body := Ok "not json" |}
    = Panic msg.
Proof.
  intros R.
  apply (C1_primary_normalizer_panics (R := R)
           {| http.StatusCode := 400; http.Body := Ok "not json" |} "not json");
    vm_compute; (discriminate || reflexivity).
Defined.

(** ** Request construction *)

Lemma signed_request_headers c now method url body :
  let req := signed_request c now method url body in
  http.Header_Get (http.ReqHeader req) "Content-Type" = json_content
  /\ http.Header_Get (http.ReqHeader req) "x-cns-security-token"
     = getToken now (apiKey c) (secretKey c).
Proof. split; reflexivity. Qed.

Section Requests.

Context {R : Runtime}.
Variables (c : Client) (now : Z).

Lemma http_NewRequest_ok method url body req :
  http_NewRequest method url body = Ok req ->
  url_Parse url = None
  /\ req = {| http.Method := if String.eqb method EmptyString then "GET" else method;
              http.URL := url; http.ReqBody := body; http.ReqHeader := [] |}.
Proof.
  unfold http_NewRequest.
  destruct (negb (http.validMethod _)); [discriminate|].
  destruct (url_Parse url); [discriminate|].
  intros H. injection H as <-. auto.
Qed.

Lemma makeRequest_ok method url payload req :
  makeRequest c now method url payload = Ok req ->
  url_Parse url = None
  /\ req = signed_request c now
             (if String.eqb method EmptyString then "GET" else method) url
             (if String.eqb method "POST" || String.eqb method "PUT"
              then Some payload else None).
Proof.
  unfold makeRequest.
  destruct (String.eqb method "POST" || String.eqb method "PUT");
    destruct (http_NewRequest method url _) as [r|e] eqn:E; try discriminate;
    apply http_NewRequest_ok in E as [Hu ->];
    intros H; injection H as <-; auto.
Qed.

(** Whether a request can be built depends on the URL alone, for the
    four methods the client uses. *)
Lemma makeRequest_parses method url payload :
  In method ["POST"; "GET"; "PUT"; "DELETE"] ->
  url_Parse url = None ->
  exists req, makeRequest c now method url payload = Ok req.
Proof.
  intros Hm Hu. unfold makeRequest, http_NewRequest.
  simpl in Hm. destruct Hm as [<-|[<-|[<-|[<-|[]]]]];
    cbn; rewrite Hu; eauto.
Qed.

End Requests.

(** ** The operations, step by step *)

Lemma bind_lift_ret {A B} (o : Outcome A) (f : A -> B) :
  (x <- lift o ;; ret (f x))
  = ([], match o with
         | Return a => Return (f a)
         | Panic m => Panic m
         | Fatal m => Fatal m
         end).
Proof. destruct o; reflexivity. Qed.

(** Split on the innermost scrutinee of the goal, again and again. *)
Ltac step_op :=
  repeat match goal with
    | |- context [match ?x with _ => _ end] =>
        lazymatch x with
        | context [match _ with _ => _ end] => fail
        | _ => destruct x eqn:?
        end
    end.

Ltac unfold_io := unfold Do, sent, lift, bind, ret, panic, log_Fatal, gate.

Section Operations.

Context {R : Runtime}.
Variables (c : Client) (now : Z) (endpoint : string).

Lemma Save_run obj payload req rl resp :
  json_Marshal obj = Ok payload ->
  makeRequest c now "POST" (fst (resolve endpoint)) payload = Ok req ->
  rateLimiter c = Some rl ->
  limiter_Wait rl = None ->
  httpclient_Do (httpclient c) req = Ok resp ->
  Save c now obj endpoint
  = ([req], with_response resp (normalize (snd (resolve endpoint)) resp)).
Proof.
  intros Hm Hq Hl Hw Hd. unfold Save.
  destruct (resolve endpoint) as [url flag]; cbn [fst snd] in *.
  rewrite Hm, Hq, Hl, Hw. unfold Do. cbn [bind]. rewrite Hd.
  destruct flag; cbn [negb normalize]; rewrite bind_lift_ret; reflexivity.
Qed.

Lemma Save_nil_gate obj payload req :
  json_Marshal obj = Ok payload ->
  makeRequest c now "POST" (fst (resolve endpoint)) payload = Ok req ->
  rateLimiter c = None ->
  Save c now obj endpoint = ([], Panic nil_dereference).
Proof.
  intros Hm Hq Hl. unfold Save.
  destruct (resolve endpoint) as [url flag]; cbn [fst] in *.
  rewrite Hm, Hq, Hl. reflexivity.
Qed.

Lemma GetbyId_run req resp :
  makeRequest c now "GET" (fst (resolve endpoint)) EmptyString = Ok req ->
  gate c = None ->
  httpclient_Do (httpclient c) req = Ok resp ->
  GetbyId c now endpoint
  = ([req], with_response resp (normalize (snd (resolve endpoint)) resp)).
Proof.
  intros Hq Hg Hd. unfold GetbyId.
  destruct (resolve endpoint) as [url flag]; cbn [fst snd] in *.
  rewrite Hq, Hg. unfold Do. cbn [bind]. rewrite Hd.
  destruct flag; cbn [negb normalize]; rewrite bind_lift_ret; reflexivity.
Qed.

Lemma UpdatebyID_run obj payload req resp :
  json_Marshal obj = Ok payload ->
  makeRequest c now "PUT" (fst (resolve endpoint)) payload = Ok req ->
  gate c = None ->
  httpclient_Do (httpclient c) req = Ok resp ->
  UpdatebyID c now obj endpoint
  = ([req], with_response resp (normalize (snd (resolve endpoint)) resp)).
Proof.
  intros Hm Hq Hg Hd. unfold UpdatebyID.
  destruct (resolve endpoint) as [url flag]; cbn [fst snd] in *.
  rewrite Hm, Hq, Hg. unfold Do. cbn [bind]. rewrite Hd.
  destruct flag; cbn [negb normalize]; rewrite bind_lift_ret; reflexivity.
Qed.

Lemma DeletebyId_run req resp :
  makeRequest c now "DELETE" (fst (resolve endpoint)) EmptyString = Ok req ->
  gate c = None ->
  httpclient_Do (httpclient c) req = Ok resp ->
  DeletebyId c now endpoint = ([req], checkForErrorsChecks resp).
Proof.
  intros Hq Hg Hd. unfold DeletebyId.
  rewrite Hq, Hg. unfold Do. cbn [bind]. rewrite Hd.
  unfold lift. destruct (checkForErrorsChecks resp); reflexivity.
Qed.

(** What an operation dispatched, if anything, is the request it built. *)

Lemma Save_sent obj req :
  In req (sent (Save c now obj endpoint)) ->
  exists payload,
    json_Marshal obj = Ok payload
    /\ makeRequest c now "POST" (fst (resolve endpoint)) payload = Ok req.
Proof.
  unfold Save; unfold_io. destruct (resolve endpoint) as [url flag]; cbn [fst].
  step_op; cbn; try tauto; intros [<-|[]]; eauto.
Qed.

Lemma GetbyId_sent req :
  In req (sent (GetbyId c now endpoint)) ->
  makeRequest c now "GET" (fst (resolve endpoint)) EmptyString = Ok req.
Proof.
  unfold GetbyId; unfold_io. destruct (resolve endpoint) as [url flag]; cbn [fst].
  step_op; cbn; try tauto; intros [<-|[]]; eauto.
Qed.

Lemma UpdatebyID_sent obj req :
  In req (sent (UpdatebyID c now obj endpoint)) ->
  exists payload,
    json_Marshal obj = Ok payload
    /\ makeRequest c now "PUT" (fst (resolve endpoint)) payload = Ok req.
Proof.
  unfold UpdatebyID; unfold_io. destruct (resolve endpoint) as [url flag]; cbn [fst].
  step_op; cbn; try tauto; intros [<-|[]]; eauto.
Qed.

Lemma DeletebyId_sent req :
  In req (sent (DeletebyId c now endpoint)) ->
  makeRequest c now "DELETE" (fst (resolve endpoint)) EmptyString = Ok req.
Proof.
  unfold DeletebyId; unfold_io.
  step_op; cbn; try tauto; intros [<-|[]]; eauto.
Qed.

End Operations.

(** Once the gate lets an operation through, exactly the request it
    built is dispatched, whatever the server answers. *)
Section Dispatch.

Context {R : Runtime}.
Variables (c : Client) (now : Z) (endpoint : string).

Lemma GetbyId_dispatches req :
  makeRequest c now "GET" (fst (resolve endpoint)) EmptyString = Ok req ->
  gate c = None ->
  sent (GetbyId c now endpoint) = [req].
Proof.
  intros Hq Hg. unfold GetbyId, Do, sent, lift, bind, ret.
  destruct (resolve endpoint) as [url flag]; cbn [fst] in *.
  rewrite Hq, Hg. step_op; reflexivity.
Qed.

Lemma UpdatebyID_dispatches obj payload req :
  json_Marshal obj = Ok payload ->
  makeRequest c now "PUT" (fst (resolve endpoint)) payload = Ok req ->
  gate c = None ->
  sent (UpdatebyID c now obj endpoint) = [req].
Proof.
  intros Hm Hq Hg. unfold UpdatebyID, Do, sent, lift, bind, ret.
  destruct (resolve endpoint) as [url flag]; cbn [fst] in *.
  rewrite Hm, Hq, Hg. step_op; reflexivity.
Qed.

Lemma DeletebyId_dispatches req :
  makeRequest c now "DELETE" (fst (resolve endpoint)) EmptyString = Ok req ->
  gate c = None ->
  sent (DeletebyId c now endpoint) = [req].
Proof.
  intros Hq Hg. unfold DeletebyId, Do, sent, lift, bind, ret.
  rewrite Hq, Hg. step_op; reflexivity.
Qed.

Lemma gate_nil : rateLimiter c = None -> gate c = None.
Proof. unfold gate. now intros ->. Qed.

End Dispatch.

(** C9. Every request an operation dispatches carries the method of its
    verb (create POST, fetch GET, update PUT, delete DELETE), a body
    exactly for POST and PUT (the encoded object), the JSON content
    type, and the token generated for this call. *)
Theorem C9_constructed_requests {R : Runtime}
  (c : Client) (now : Z) (obj : Obj) (endpoint : string) (req : http.Request) :
  let signed :=
    http.Header_Get (http.ReqHeader req) "Content-Type" = "application/json"
    /\ http.Header_Get (http.ReqHeader req) "x-cns-security-token"
       = getToken now (apiKey c) (secretKey c) in
  (In req (sent (Save c now obj endpoint)) ->
   http.Method req = "POST"
   /\ (exists payload, json_Marshal obj = Ok payload
                       /\ http.ReqBody req = Some payload)
   /\ signed)
  /\ (In req (sent (GetbyId c now endpoint)) ->
      http.Method req = "GET" /\ http.ReqBody req = None /\ signed)
  /\ (In req (sent (UpdatebyID c now obj endpoint)) ->
      http.Method req = "PUT"
      /\ (exists payload, json_Marshal obj = Ok payload
                          /\ http.ReqBody req = Some payload)
      /\ signed)
  /\ (In req (sent (DeletebyId c now endpoint)) ->
      http.Method req = "DELETE" /\ http.ReqBody req = None /\ signed).
Proof.
  cbv zeta. split; [|split; [|split]]; intros H.
  - apply Save_sent in H as (p & Hm & Hq).
    apply makeRequest_ok in Hq as [_ ->]. cbn [String.eqb Ascii.eqb Bool.eqb orb].
    split; [reflexivity|]. split; [exists p; split; [assumption|reflexivity]|].
    apply signed_request_headers.
  - apply GetbyId_sent in H as Hq.
    apply makeRequest_ok in Hq as [_ ->]. cbn [String.eqb Ascii.eqb Bool.eqb orb].
    split; [reflexivity|]. split; [reflexivity|].
    apply signed_request_headers.
  - apply UpdatebyID_sent in H as (p & Hm & Hq).
    apply makeRequest_ok in Hq as [_ ->]. cbn [String.eqb Ascii.eqb Bool.eqb orb].
    split; [reflexivity|]. split; [exists p; split; [assumption|reflexivity]|].
    apply signed_request_headers.
  - apply DeletebyId_sent in H as Hq.
    apply makeRequest_ok in Hq as [_ ->]. cbn [String.eqb Ascii.eqb Bool.eqb orb].
    split; [reflexivity|]. split; [reflexivity|].
    apply signed_request_headers.
Qed.

(** A create call through a client with a gate, against the reference
    world: the one request it dispatches. *)
Lemma C9_constructed_requests_witness :
  let R := reference_runtime (answers 200 "{}") in
  let c := set_rateLimiter (rate.NewLimiter rate.Inf 1)
             (new_client "key" "secret") in
  let req :=
    {| http.Method := "POST";
       http.URL := "https://api.dns.constellix.com/v1/domains";
       http.ReqBody := Some "7";
       http.ReqHeader :=
         [("X-Cns-Security-Token",
           ["key:wM/x5OtJkw9gpeIAD/C+ySgHcak=:1700000000123"]);
          ("Content-Type", ["application/json"])] |} in
  sent (Save c 1700000000123456789 (AnInt 7) "v1/domains") = [req]
  /\ http.Method req = "POST"
  /\ http.Header_Get (http.ReqHeader req) "x-cns-security-token"
     = getToken 1700000000123456789 "key" "secret".
Proof.
  intros R c req.
  assert (Hs : sent (Save c 1700000000123456789 (AnInt 7) "v1/domains") = [req])
    by (vm_compute; reflexivity).
  destruct (C9_constructed_requests (R := R) c 1700000000123456789 (AnInt 7)
              "v1/domains" req) as [Hsave _].
  destruct Hsave as (Hm & _ & _ & Ht); [rewrite Hs; now left|].
  repeat split; assumption.
Defined.

(** C3. Through a client built without a rate gate, create panics on
    the nil limiter before anything is dispatched, while fetch, update
    and delete skip the gate and dispatch their request. *)
Theorem C3_create_panics_without_gate {R : Runtime}
  (c : Client) (now : Z) (obj : Obj) (endpoint payload : string) :
  rateLimiter c = None ->
  json_Marshal obj = Ok payload ->
  url_Parse (fst (resolve endpoint)) = None ->
  Save c now obj endpoint = ([], Panic nil_dereference)
  /\ (exists req, sent (GetbyId c now endpoint) = [req])
  /\ (exists req, sent (UpdatebyID c now obj endpoint) = [req])
  /\ (exists req, sent (DeletebyId c now endpoint) = [req]).
Proof.
  intros Hl Hm Hu. pose proof (gate_nil c Hl) as Hg.
  repeat split.
  - destruct (makeRequest_parses c now "POST" _ payload (or_introl eq_refl) Hu)
      as [req Hq].
    now apply Save_nil_gate with payload req.
  - destruct (makeRequest_parses c now "GET" _ EmptyString
                (or_intror (or_introl eq_refl)) Hu) as [req Hq].
    exists req. now apply GetbyId_dispatches.
  - destruct (makeRequest_parses c now "PUT" _ payload
                (or_intror (or_intror (or_introl eq_refl))) Hu) as [req Hq].
    exists req. now apply UpdatebyID_dispatches with payload.
  - destruct (makeRequest_parses c now "DELETE" _ EmptyString
                (or_intror (or_intror (or_intror (or_introl eq_refl)))) Hu)
      as [req Hq].
    exists req. now apply DeletebyId_dispatches.
Qed.

(** The client that [GetClient] builds from two keys and no option. *)
Lemma C3_create_panics_without_gate_witness :
  let R := reference_runtime (answers 200 "{}") in
  let c := set_httpclient {| http.transport := useInsecureHTTPClient false |}
             (new_client "key" "secret") in
  GetClient "key" "secret" [] = Return c
  /\ Save c 1700000000123456789 (AnInt 7) "v1/domains"
     = ([], Panic nil_dereference)
  /\ exists req, sent (UpdatebyID c 1700000000123456789 (AnInt 7) "v1/domains")
                 = [req].
Proof.
  intros R c.
  split; [vm_compute; reflexivity|].
  destruct (C3_create_panics_without_gate (R := R) c 1700000000123456789
              (AnInt 7) "v1/domains" "7") as (Hs & _ & Hu & _);
    [reflexivity | reflexivity | vm_compute; reflexivity | split; assumption].
Defined.

(** C4. Whatever the classification of the endpoint, delete hands the
    response to the secondary normalizer. *)
Theorem C4_delete_always_secondary {R : Runtime}
  (c : Client) (now : Z) (endpoint : string)
  (req : http.Request) (resp : http.Response) :
  makeRequest c now "DELETE" (fst (resolve endpoint)) EmptyString = Ok req ->
  gate c = None ->
  httpclient_Do (httpclient c) req = Ok resp ->
  DeletebyId c now endpoint = ([req], checkForErrorsChecks resp).
Proof. apply DeletebyId_run. Qed.

(** A delete on a primary endpoint answered with status 201 and an
    errors body: delete reports success, where the primary normalizer,
    which fetch applies to the same answer, reports the error. *)
Lemma C4_delete_always_secondary_witness :
  let body := "{" ++ quoted "errors" ++ ":[" ++ quoted "gone" ++ "]}" in
  let R := reference_runtime (answers 201 body) in
  let c := new_client "key" "secret" in
  let resp := {| http.StatusCode := 201; http.Body := Ok body |} in
  snd (resolve "v1/domains/1") = false
  /\ outcome (DeletebyId c 1700000000123456789 "v1/domains/1") = Return None
  /\ checkForErrors resp = Return (Some "gone")
  /\ outcome (GetbyId c 1700000000123456789 "v1/domains/1")
     = Return (Some resp, Some "gone").
Proof.
  intros body R c resp.
  split; [reflexivity|]. split.
  - rewrite (C4_delete_always_secondary (R := R) c 1700000000123456789
               "v1/domains/1"
               (signed_request c 1700000000123456789 "DELETE"
                  "https://api.dns.constellix.com/v1/domains/1" None)
               resp); vm_compute; reflexivity.
  - split; vm_compute; reflexivity.
Defined.

(** ** Endpoint resolution *)

Lemma Split_append_sep (a r : string) :
  occurs "/" a = false ->
  strings_Split (a ++ String "/" r) "/" = a :: strings_Split r "/".
Proof.
  induction a as [|x a IH]; simpl; [reflexivity|].
  intros H. apply orb_false_iff in H as [Hx Ha].
  rewrite Hx, (IH Ha). reflexivity.
Qed.

Lemma resolve_third_segment (endpoint : string) :
  resolve endpoint
  = match third_segment endpoint with
    | Some seg =>
        if String.eqb seg sonar_host then (endpoint, true)
        else (BaseURL ++ endpoint, false)
    | None => (BaseURL ++ endpoint, false)
    end.
Proof.
  unfold resolve, third_segment.
  destruct (strings_Split endpoint "/") as [|a [|b [|s l]]]; reflexivity.
Qed.

Lemma resolve_secondary_iff (endpoint : string) :
  snd (resolve endpoint) = true <-> third_segment endpoint = Some sonar_host.
Proof.
  rewrite resolve_third_segment.
  destruct (third_segment endpoint) as [seg|]; [|split; discriminate].
  destruct (String.eqb_spec seg sonar_host) as [->|Hne]; simpl.
  - tauto.
  - split; [discriminate | intros H; injection H as H; contradiction].
Qed.

Lemma resolve_cases (endpoint : string) :
  (snd (resolve endpoint) = true -> fst (resolve endpoint) = endpoint)
  /\ (snd (resolve endpoint) = false ->
      fst (resolve endpoint) = BaseURL ++ endpoint).
Proof.
  unfold resolve.
  destruct (_ && _); simpl; split; (reflexivity || discriminate).
Qed.

(** In [scheme://authority/path] the third segment is the authority. *)
Lemma third_segment_of_absolute (scheme authority path : string) :
  occurs "/" scheme = false ->
  occurs "/" authority = false ->
  third_segment (scheme ++ "//" ++ authority ++ String "/" path) = Some authority.
Proof.
  intros Hs Ha. unfold third_segment.
  change (scheme ++ "//" ++ authority ++ String "/" path)
    with (scheme ++ String "/" (EmptyString ++ String "/" (authority ++ String "/" path))).
  rewrite Split_append_sep by assumption.
  rewrite Split_append_sep by reflexivity.
  rewrite Split_append_sep by assumption.
  reflexivity.
Qed.

Lemma third_segment_short (endpoint : string) :
  (List.length (strings_Split endpoint "/") < 3)%nat ->
  third_segment endpoint = None.
Proof.
  unfold third_segment. intros H. apply nth_error_None. lia.
Qed.

(** An operation that dispatched a request and got an answer returns
    the verdict of the normalizer its flag selects. *)
Section Classification.

Context {R : Runtime}.
Variables (c : Client) (now : Z) (endpoint : string).
Variables (req : http.Request) (resp : http.Response).
Hypothesis answered : httpclient_Do (httpclient c) req = Ok resp.

Lemma Save_classifies obj :
  In req (sent (Save c now obj endpoint)) ->
  outcome (Save c now obj endpoint)
  = with_response resp (normalize (snd (resolve endpoint)) resp).
Proof.
  unfold Save, normalize, with_response, outcome; unfold_io.
  destruct (resolve endpoint) as [url flag]; cbn [fst snd].
  destruct flag; cbn [negb];
    step_op; cbn; try tauto; intros [->|[]]; rewrite answered in *; congruence.
Qed.

Lemma GetbyId_classifies :
  In req (sent (GetbyId c now endpoint)) ->
  outcome (GetbyId c now endpoint)
  = with_response resp (normalize (snd (resolve endpoint)) resp).
Proof.
  unfold GetbyId, normalize, with_response, outcome; unfold_io.
  destruct (resolve endpoint) as [url flag]; cbn [fst snd].
  destruct flag; cbn [negb];
    step_op; cbn; try tauto; intros [->|[]]; rewrite answered in *; congruence.
Qed.

Lemma UpdatebyID_classifies obj :
  In req (sent (UpdatebyID c now obj endpoint)) ->
  outcome (UpdatebyID c now obj endpoint)
  = with_response resp (normalize (snd (resolve endpoint)) resp).
Proof.
  unfold UpdatebyID, normalize, with_response, outcome; unfold_io.
  destruct (resolve endpoint) as [url flag]; cbn [fst snd].
  destruct flag; cbn [negb];
    step_op; cbn; try tauto; intros [->|[]]; rewrite answered in *; congruence.
Qed.

End Classification.

Lemma sent_URL {R : Runtime} c now method url payload req :
  makeRequest c now method url payload = Ok req -> http.URL req = url.
Proof. intros H. apply makeRequest_ok in H as [_ ->]. reflexivity. Qed.

(** ** The code against the resolution rule of the specification *)

Lemma all_bytes_impl (p q : ascii -> bool) (s : string) :
  (forall c, p c = true -> q c = true) ->
  all_bytes p s = true -> all_bytes q s = true.
Proof.
  intros Hpq. induction s as [|c s IH]; simpl; [reflexivity|].
  intros H. apply andb_true_iff in H as [Hc Hs].
  now rewrite (Hpq c Hc), (IH Hs).
Qed.

Lemma all_bytes_no_occurrence (p : ascii -> bool) (x : ascii) (s : string) :
  p x = false -> all_bytes p s = true -> occurs x s = false.
Proof.
  intros Hx. induction s as [|c s IH]; simpl; [reflexivity|].
  intros H. apply andb_true_iff in H as [Hc Hs]. rewrite (IH Hs), orb_false_r.
  destruct (Ascii.eqb_spec c x) as [->|]; [congruence|reflexivity].
Qed.

Lemma take_until_stops (stop : ascii -> bool) (a : string) (c : ascii) (r : string) :
  all_bytes (fun x => negb (stop x)) a = true ->
  stop c = true ->
  Spec.take_until stop (a ++ String c r) = (a, String c r).
Proof.
  intros Ha Hc. induction a as [|x a IH]; simpl.
  - now rewrite Hc.
  - simpl in Ha. apply andb_true_iff in Ha as [Hx Ha].
    apply negb_true_iff in Hx. now rewrite Hx, (IH Ha).
Qed.

Lemma take_until_all (stop : ascii -> bool) (a : string) :
  all_bytes (fun x => negb (stop x)) a = true ->
  Spec.take_until stop a = (a, EmptyString).
Proof.
  induction a as [|x a IH]; simpl; [reflexivity|].
  intros Ha. apply andb_true_iff in Ha as [Hx Ha].
  apply negb_true_iff in Hx. now rewrite Hx, (IH Ha).
Qed.

Lemma no_at_sign (r : string) :
  all_bytes Spec.is_host_byte r = true ->
  existsb (Ascii.eqb "@") (list_ascii_of_string r) = false.
Proof.
  induction r as [|x r IH]; [reflexivity|].
  cbn [all_bytes list_ascii_of_string existsb]. intros H.
  apply andb_true_iff in H as [Hx Hr]. rewrite (IH Hr), orb_false_r.
  destruct (Ascii.eqb_spec "@"%char x) as [<-|]; [discriminate Hx|reflexivity].
Qed.

Lemma after_userinfo_plain (h : string) :
  all_bytes Spec.is_host_byte h = true -> Spec.after_userinfo h = h.
Proof.
  destruct h as [|c r]; [reflexivity|].
  cbn [all_bytes Spec.after_userinfo]. intros H.
  apply andb_true_iff in H as [Hc Hr]. rewrite (no_at_sign r Hr).
  destruct (Ascii.eqb_spec c "@"%char) as [->|]; [discriminate Hc|reflexivity].
Qed.

Lemma host_component_of_plain (scheme host path : string) :
  scheme <> EmptyString ->
  all_bytes Spec.is_scheme_byte scheme = true ->
  all_bytes Spec.is_host_byte host = true ->
  Spec.host_component (scheme ++ "://" ++ host ++ String "/" path) = Some host.
Proof.
  intros Hne Hs Hh. unfold Spec.host_component, Spec.after_scheme.
  change (scheme ++ "://" ++ host ++ String "/" path)
    with (scheme ++ String ":" ("//" ++ host ++ String "/" path)).
  rewrite take_until_stops; [| |reflexivity].
  2:{ apply all_bytes_impl with (2 := Hs). intros c ->. reflexivity. }
  destruct scheme as [|x scheme]; [contradiction|].
  cbn [append]. rewrite take_until_stops; [| |reflexivity].
  2:{ apply all_bytes_impl with (2 := Hh). intros c. unfold Spec.is_host_byte.
      destruct (Ascii.eqb c "/"), (Ascii.eqb c "?"), (Ascii.eqb c "#"),
        (Ascii.eqb c "@"), (Ascii.eqb c ":"); simpl; congruence. }
  rewrite after_userinfo_plain by assumption.
  rewrite take_until_all; [reflexivity|].
  apply all_bytes_impl with (2 := Hh). intros c. unfold Spec.is_host_byte.
  rewrite (Ascii.eqb_sym ":" c).
  destruct (Ascii.eqb c "/"), (Ascii.eqb c "?"), (Ascii.eqb c "#"),
    (Ascii.eqb c "@"), (Ascii.eqb c ":"); simpl; congruence.
Qed.

(** On an endpoint [scheme://host/path] with a plain host the code
    resolves as the specification words it. *)
Lemma resolve_agrees_on_plain (scheme host path : string) :
  scheme <> EmptyString ->
  all_bytes Spec.is_scheme_byte scheme = true ->
  all_bytes Spec.is_host_byte host = true ->
  resolve (scheme ++ "://" ++ host ++ String "/" path)
  = Spec.resolve_by_host (scheme ++ "://" ++ host ++ String "/" path).
Proof.
  intros Hne Hs Hh. unfold Spec.resolve_by_host.
  rewrite host_component_of_plain by assumption.
  rewrite resolve_third_segment.
  replace (scheme ++ "://" ++ host ++ String "/" path)
    with ((scheme ++ ":") ++ "//" ++ host ++ String "/" path)
    by (rewrite append_assoc3; reflexivity).
  rewrite third_segment_of_absolute; [reflexivity| |].
  - apply all_bytes_no_occurrence with (p := fun c => Spec.is_scheme_byte c || Ascii.eqb c ":");
      [reflexivity|].
    clear Hne. induction scheme as [|x s IH]; simpl; [reflexivity|].
    simpl in Hs. apply andb_true_iff in Hs as [Hx Hs']. now rewrite Hx, (IH Hs').
  - now apply all_bytes_no_occurrence with (p := Spec.is_host_byte).
Qed.

(** C5, as the code has it.  Each of the four operations calls the
    endpoint as it is when the third segment of the endpoint cut at its
    slashes is the secondary host, and the base URL followed by the
    endpoint otherwise; create, fetch and update then judge the answer
    as secondary in the first case and primary in the second.  For an
    endpoint of the form scheme://authority/path the third segment is
    the authority, and when that authority is a plain host the code
    resolves the endpoint as the rule on the host component does. *)
Theorem C5_resolution_by_third_segment {R : Runtime}
  (c : Client) (now : Z) (obj : Obj) (endpoint : string) :
  let secondary :=
    match third_segment endpoint with
    | Some seg => String.eqb seg sonar_host
    | None => false
    end in
  let url := if secondary then endpoint else BaseURL ++ endpoint in
  resolve endpoint = (url, secondary)
  /\ (forall req,
        In req (sent (Save c now obj endpoint))
        \/ In req (sent (GetbyId c now endpoint))
        \/ In req (sent (UpdatebyID c now obj endpoint))
        \/ In req (sent (DeletebyId c now endpoint)) ->
        http.URL req = url)
  /\ (forall req resp,
        httpclient_Do (httpclient c) req = Ok resp ->
        (In req (sent (Save c now obj endpoint)) ->
         outcome (Save c now obj endpoint)
         = with_response resp (normalize secondary resp))
        /\ (In req (sent (GetbyId c now endpoint)) ->
            outcome (GetbyId c now endpoint)
            = with_response resp (normalize secondary resp))
        /\ (In req (sent (UpdatebyID c now obj endpoint)) ->
            outcome (UpdatebyID c now obj endpoint)
            = with_response resp (normalize secondary resp)))
  /\ (forall scheme authority path,
        endpoint = scheme ++ "//" ++ authority ++ String "/" path ->
        occurs "/" scheme = false ->
        occurs "/" authority = false ->
        secondary = String.eqb authority sonar_host)
  /\ (forall scheme host path,
        endpoint = scheme ++ "://" ++ host ++ String "/" path ->
        scheme <> EmptyString ->
        all_bytes Spec.is_scheme_byte scheme = true ->
        all_bytes Spec.is_host_byte host = true ->
        resolve endpoint = Spec.resolve_by_host endpoint).
Proof.
  cbv zeta.
  assert (Hr : resolve endpoint
               = (if match third_segment endpoint with
                     | Some seg => String.eqb seg sonar_host
                     | None => false
                     end then endpoint else BaseURL ++ endpoint,
                  match third_segment endpoint with
                  | Some seg => String.eqb seg sonar_host
                  | None => false
                  end)).
  { rewrite resolve_third_segment.
    destruct (third_segment endpoint) as [seg|]; [|reflexivity].
    destruct (String.eqb seg sonar_host); reflexivity. }
  assert (Hu : fst (resolve endpoint)
               = if match third_segment endpoint with
                    | Some seg => String.eqb seg sonar_host
                    | None => false
                    end then endpoint else BaseURL ++ endpoint)
    by (rewrite Hr; reflexivity).
  assert (Hf : snd (resolve endpoint)
               = match third_segment endpoint with
                 | Some seg => String.eqb seg sonar_host
                 | None => false
                 end)
    by (rewrite Hr; reflexivity).
  split; [exact Hr|]. split; [|split; [|split]].
  - intros req [H|[H|[H|H]]]; rewrite <- Hu.
    + apply Save_sent in H as (p & _ & Hq). now apply sent_URL in Hq.
    + apply GetbyId_sent in H. now apply sent_URL in H.
    + apply UpdatebyID_sent in H as (p & _ & Hq). now apply sent_URL in Hq.
    + apply DeletebyId_sent in H. now apply sent_URL in H.
  - intros req resp Hd. rewrite <- Hf. split; [|split]; intros H.
    + now apply Save_classifies with req.
    + now apply GetbyId_classifies with req.
    + now apply UpdatebyID_classifies with req.
  - intros scheme authority path -> Hs Ha.
    now rewrite third_segment_of_absolute.
  - intros scheme host path -> Hne Hs Hh.
    now apply resolve_agrees_on_plain.
Qed.

(** The two endpoints of the specification, fetched through a client
    without a gate: the secondary one is called as it is, the other
    behind the base URL. *)
Lemma C5_resolution_witness :
  let R := reference_runtime (answers 200 "{}") in
  let c := new_client "key" "secret" in
  resolve "https://api.sonar.constellix.com/v1/x"
  = ("https://api.sonar.constellix.com/v1/x", true)
  /\ resolve "v1/domains" = ("https://api.dns.constellix.com/v1/domains", false)
  /\ map http.URL (sent (GetbyId c 1700000000123456789 "v1/domains"))
     = ["https://api.dns.constellix.com/v1/domains"].
Proof.
  intros R c.
  split; [|split].
  - exact (proj1 (C5_resolution_by_third_segment (R := R) c 0 (AnInt 0)
                    "https://api.sonar.constellix.com/v1/x")).
  - exact (proj1 (C5_resolution_by_third_segment (R := R) c 0 (AnInt 0)
                    "v1/domains")).
  - vm_compute. reflexivity.
Defined.

(** C5 as the specification words it fails: an endpoint without any
    host component whose third segment is the name of the secondary
    host is called as it is and judged secondary, and an endpoint whose
    host is the secondary host followed by a port gets the base URL in
    front. *)
Lemma C5_host_component_counterexample :
  Spec.host_component "a/b/api.sonar.constellix.com" = None
  /\ Spec.resolve_by_host "a/b/api.sonar.constellix.com"
     = ("https://api.dns.constellix.com/a/b/api.sonar.constellix.com", false)
  /\ resolve "a/b/api.sonar.constellix.com"
     = ("a/b/api.sonar.constellix.com", true)
  /\ Spec.host_component "https://api.sonar.constellix.com:443/v1/x"
     = Some "api.sonar.constellix.com"
  /\ resolve "https://api.sonar.constellix.com:443/v1/x"
     = ("https://api.dns.constellix.com/https://api.sonar.constellix.com:443/v1/x",
        false).
Proof. repeat split; vm_compute; reflexivity. Qed.

(** ** The rate gate *)

Section RateGate.

Context {R : Runtime}.
Variable client : Client.

Lemma RequestInterval_negative (pInterval : f32.t) :
  f32.geb pInterval (f32.of_Z 0) = false ->
  RequestInterval pInterval client = client.
Proof. unfold RequestInterval. now intros ->. Qed.

Lemma RequestInterval_gate (pInterval : f32.t) :
  f32.geb pInterval (f32.of_Z 0) = true ->
  rateLimiter (RequestInterval pInterval client)
  = Some (rate.NewLimiter (rate.Every (interval_duration pInterval)) 1).
Proof. unfold RequestInterval. now intros ->. Qed.

End RateGate.

Ltac split_ltb :=
  repeat match goal with
    | |- context [?a <? ?b] => destruct (Z.ltb_spec a b)
    end.

(** A limiter of capacity one that refills every [d] nanoseconds never
    holds more than [d] of credit, so a caller waits for what is
    missing of it. *)
Lemma reserve_capacity_one (d : Z) (b : rate.Bucket) (t : Z) :
  let tokens := Z.min d (rate.credit b + (t - Z.min t (rate.last b))) in
  rate.reserve (rate.NewLimiter (rate.PerNanos d) 1) b t
  = (t + (d - tokens), {| rate.credit := tokens - d; rate.last := t |}).
Proof.
  cbv [rate.reserve rate.NewLimiter rate.limit rate.burst].
  rewrite Z.mul_1_l. cbv zeta. f_equal. f_equal.
  split_ltb; lia.
Qed.

(** Two admissions by such a limiter are at least [d] apart, whatever
    the bucket held. *)
Lemma reserve_spacing (d : Z) (b : rate.Bucket) (t0 t1 : Z) :
  let l := rate.NewLimiter (rate.PerNanos d) 1 in
  fst (rate.reserve l b t0) <= t1 ->
  fst (rate.reserve l b t0) + d
  <= fst (rate.reserve l (snd (rate.reserve l b t0)) t1).
Proof.
  cbv zeta. rewrite !reserve_capacity_one. cbn [fst snd rate.credit rate.last].
  lia.
Qed.

(** With no limit on the rate the wait ends where it starts. *)
Lemma reserve_unlimited (n : Z) (b : rate.Bucket) (t : Z) :
  rate.reserve (rate.NewLimiter rate.Inf n) b t = (t, b).
Proof. reflexivity. Qed.

(** Durations the option computes for some intervals: half a second,
    one second, two and a half seconds, half a millisecond. *)
Example interval_durations {R : Runtime} :
  map interval_duration
      [f32.dyadic 1 (-1); f32.of_Z 1; f32.dyadic 5 (-1); f32.dyadic 1 (-11)]
  = [500; 1000; 2500; 0].
Proof. reflexivity. Qed.

(** C2, at an interval of half a second.  The option installs a limiter
    of capacity one that refills every 500 nanoseconds: of two calls
    made back to back the second is let through 500 nanoseconds after
    the first.  An interval of zero installs a limiter of unlimited
    rate, and a negative interval leaves the client as it was. *)
Theorem C2_half_second_is_500_nanoseconds {R : Runtime}
  (client : Client) (t0 : Z) :
  let l := rate.NewLimiter (rate.PerNanos 500) 1 in
  rateLimiter (RequestInterval (f32.dyadic 1 (-1)) client) = Some l
  /\ fst (rate.reserve l (rate.full l) t0) = t0
  /\ fst (rate.reserve l (snd (rate.reserve l (rate.full l) t0)) t0) = t0 + 500
  /\ rateLimiter (RequestInterval (f32.of_Z 0) client)
     = Some (rate.NewLimiter rate.Inf 1)
  /\ RequestInterval (f32.of_Z (-1)) client = client.
Proof.
  cbv zeta. split; [reflexivity|].
  rewrite !reserve_capacity_one.
  cbn [fst snd rate.credit rate.last rate.full rate.NewLimiter rate.limit rate.burst].
  split; [lia|]. split; [lia|]. split; reflexivity.
Qed.

(* ================================================================== *)
(** * Part III: further properties of the code *)
(* ================================================================== *)

Section Construction.

Context {R : Runtime}.
Variables (apiKey0 secretKey0 : string).

Lemma initClient_unfold (options : list Option) :
  initClient apiKey0 secretKey0 options
  = let client := configured apiKey0 secretKey0 options in
    let transport := useInsecureHTTPClient (insecure client) in
    if String.eqb (proxyUrl client) EmptyString
    then Return (set_httpclient {| http.transport := transport |} client)
    else match url_Parse (proxyUrl client) with
         | Some err => Fatal err
         | None =>
             Return (set_httpclient
                       {| http.transport :=
                            {| http.CipherSuites := http.CipherSuites transport;
                               http.PreferServerCipherSuites :=
                                 http.PreferServerCipherSuites transport;
                               http.InsecureSkipVerify :=
                                 http.InsecureSkipVerify transport;
                               http.MinVersion := http.MinVersion transport;
                               http.MaxVersion := http.MaxVersion transport;
                               http.Proxy := Some (proxyUrl client) |} |}
                       client)
         end.
Proof.
  unfold initClient, configured, configProxy. cbv zeta.
  destruct (String.eqb _ EmptyString); cbn [negb]; [reflexivity|].
  cbn [proxyUrl]. destruct (url_Parse _); reflexivity.
Qed.

End Construction.

Section ConstructionProps.

Context {R : Runtime}.

(** X1. Whatever the options did to the client, the client that
    [initClient] returns has the transport built afterwards: TLS 1.1 to
    1.2, the five suites, server preference, certificate checks off
    exactly when the insecure flag is set, and a proxy exactly when the
    proxy URL is not empty, in which case that URL parsed. *)
Theorem initClient_transport (apiKey0 secretKey0 : string)
  (options : list Option) (c : Client) :
  initClient apiKey0 secretKey0 options = Return c ->
  let t := http.transport (httpclient c) in
  http.MinVersion t = 770 /\ http.MaxVersion t = 771
  /\ http.CipherSuites t = [49171; 49172; 49191; 49199; 49200]
  /\ http.PreferServerCipherSuites t = true
  /\ http.InsecureSkipVerify t = insecure c
  /\ http.Proxy t
     = (if String.eqb (proxyUrl c) EmptyString then None else Some (proxyUrl c))
  /\ (proxyUrl c <> EmptyString -> url_Parse (proxyUrl c) = None).
Proof.
  rewrite initClient_unfold. cbv zeta.
  destruct (String.eqb_spec (proxyUrl (configured apiKey0 secretKey0 options))
              EmptyString) as [E|E].
  - intros H. injection H as <-. cbn. rewrite E. cbn.
    repeat (split; [reflexivity|]). congruence.
  - destruct (url_Parse _) as [err|] eqn:Hp; [discriminate|].
    intros H. injection H as <-. cbn.
    destruct (String.eqb_spec (proxyUrl (configured apiKey0 secretKey0 options))
                EmptyString); [contradiction|].
    repeat (split; [reflexivity|]). intros _. exact Hp.
Qed.

(** X2. Construction ends the process exactly when the proxy URL left by
    the options is not empty and does not parse; it never panics, and
    with an empty proxy URL it returns a client without parsing
    anything. *)
Theorem initClient_outcome (apiKey0 secretKey0 : string) (options : list Option) :
  let u := proxyUrl (configured apiKey0 secretKey0 options) in
  (forall err,
     initClient apiKey0 secretKey0 options = Fatal err
     <-> u <> EmptyString /\ url_Parse u = Some err)
  /\ (forall msg, initClient apiKey0 secretKey0 options <> Panic msg)
  /\ ((u = EmptyString \/ url_Parse u = None) ->
      exists c, initClient apiKey0 secretKey0 options = Return c).
Proof.
  cbv zeta. rewrite initClient_unfold. cbv zeta.
  destruct (String.eqb_spec (proxyUrl (configured apiKey0 secretKey0 options))
              EmptyString) as [E|E].
  - split; [|split].
    + intros err. split; [discriminate | intros [H _]; contradiction].
    + discriminate.
    + eauto.
  - destruct (url_Parse _) as [e|]; (split; [|split]).
    + intros err. split; [intros H; injection H as <-; auto|].
      intros [_ H]. injection H as <-. reflexivity.
    + discriminate.
    + intros [H|H]; [contradiction|discriminate].
    + intros err. split; [discriminate | intros [_ H]; discriminate].
    + discriminate.
    + eauto.
Qed.

End ConstructionProps.

Section OptionLists.

Context {R : Runtime}.

Lemma fold_options_app (l1 l2 : list Option) (c : Client) :
  fold_left (fun c option => option c) (l1 ++ l2) c
  = fold_left (fun c option => option c) l2
      (fold_left (fun c option => option c) l1 c).
Proof. apply fold_left_app. Qed.

Lemma options_swap (o1 o2 : option_spec) (c : Client) :
  same_kind o1 o2 = false ->
  option_of o2 (option_of o1 c) = option_of o1 (option_of o2 c).
Proof.
  destruct o1, o2; try discriminate; intros _; cbn [option_of];
    unfold RequestInterval, Insecure, ProxyUrl, set_rateLimiter;
    try destruct (f32.geb p (f32.of_Z 0)); reflexivity.
Qed.

(** X3. Options of different kinds are independent: exchanging two
    neighbours of different kinds in the option list changes nothing of
    what construction yields. *)
Theorem initClient_order (apiKey0 secretKey0 : string)
  (before after : list option_spec) (o1 o2 : option_spec) :
  same_kind o1 o2 = false ->
  initClient apiKey0 secretKey0 (map option_of (before ++ o1 :: o2 :: after))
  = initClient apiKey0 secretKey0 (map option_of (before ++ o2 :: o1 :: after)).
Proof.
  intros Hk. rewrite !initClient_unfold. unfold configured.
  rewrite !map_app, !fold_options_app. cbn [map fold_left].
  now rewrite (options_swap o1 o2 _ Hk).
Qed.

(** Of two options of one kind the later one decides, except that an
    interval below zero leaves an earlier gate in place. *)
Lemma options_last_wins (c : Client) :
  (forall b b', Insecure b (Insecure b' c) = Insecure b c)
  /\ (forall u u', ProxyUrl u (ProxyUrl u' c) = ProxyUrl u c)
  /\ (forall p p',
        RequestInterval p (RequestInterval p' c)
        = if f32.geb p (f32.of_Z 0) then RequestInterval p c
          else RequestInterval p' c).
Proof.
  repeat split; intros; unfold RequestInterval, set_rateLimiter;
    try destruct (f32.geb p (f32.of_Z 0));
    try destruct (f32.geb p' (f32.of_Z 0)); reflexivity.
Qed.

Lemma configured_fields (specs : list option_spec) (c0 : Client) :
  let c := fold_left (fun c option => option c) (map option_of specs) c0 in
  apiKey c = apiKey c0 /\ secretKey c = secretKey c0
  /\ (rateLimiter c = None
      <-> rateLimiter c0 = None /\ existsb installs_gate specs = false).
Proof.
  revert c0. induction specs as [|o specs IH]; intros c0; cbn [map fold_left existsb].
  - cbv zeta. intuition.
  - specialize (IH (option_of o c0)). cbv zeta in IH |- *.
    destruct IH as (Ha & Hs & Hl). rewrite Ha, Hs, Hl.
    destruct o as [b|u|p]; cbn [option_of installs_gate orb];
      try (cbn; tauto).
    unfold RequestInterval.
    destruct (f32.geb p (f32.of_Z 0)); cbn; [|tauto].
    split; [|split]; try reflexivity.
    split; [intros [H _]; discriminate | intros [_ H]; discriminate].
Qed.

Lemma initClient_fields (apiKey0 secretKey0 : string)
  (specs : list option_spec) (c : Client) :
  initClient apiKey0 secretKey0 (map option_of specs) = Return c ->
  apiKey c = apiKey0 /\ secretKey c = secretKey0
  /\ (rateLimiter c = None <-> existsb installs_gate specs = false).
Proof.
  rewrite initClient_unfold. cbv zeta. unfold configured.
  pose proof (configured_fields specs (new_client apiKey0 secretKey0)) as H.
  cbv zeta in H. destruct H as (Ha & Hs & Hl).
  assert (Hret : forall h,
             let c' := set_httpclient h
                         (fold_left (fun c option => option c)
                            (map option_of specs) (new_client apiKey0 secretKey0)) in
             apiKey c' = apiKey0 /\ secretKey c' = secretKey0
             /\ (rateLimiter c' = None <-> existsb installs_gate specs = false)).
  { intros h. cbn. rewrite Ha, Hs, Hl. cbn. tauto. }
  destruct (String.eqb _ EmptyString).
  - intros E. injection E as <-. apply Hret.
  - destruct (url_Parse _); [discriminate|].
    intros E. injection E as <-. apply Hret.
Qed.

(** X4. None of the three options touches the credentials, and the
    client is left without a rate gate exactly when no option gives an
    interval of at least zero. *)
Theorem initClient_credentials_and_gate (apiKey0 secretKey0 : string)
  (specs : list option_spec) (c : Client) :
  initClient apiKey0 secretKey0 (map option_of specs) = Return c ->
  apiKey c = apiKey0 /\ secretKey c = secretKey0
  /\ (rateLimiter c = None <-> existsb installs_gate specs = false).
Proof. apply initClient_fields. Qed.

End OptionLists.

(** ** The token, field by field *)

Lemma Split_at_sep (sep : ascii) (a r : string) :
  occurs sep a = false ->
  strings_Split (a ++ String sep r) sep = a :: strings_Split r sep.
Proof.
  induction a as [|x a IH]; simpl.
  - now rewrite Ascii.eqb_refl.
  - intros H. apply orb_false_iff in H as [Hx Ha].
    rewrite Hx, (IH Ha). reflexivity.
Qed.

Lemma Split_whole (sep : ascii) (a : string) :
  occurs sep a = false -> strings_Split a sep = [a].
Proof.
  induction a as [|x a IH]; simpl; [reflexivity|].
  intros H. apply orb_false_iff in H as [Hx Ha].
  rewrite Hx, (IH Ha). reflexivity.
Qed.

Lemma Split_ends_with (sep : ascii) (x a : string) :
  occurs sep a = false ->
  exists l, l <> [] /\ strings_Split (x ++ String sep a) sep = (l ++ [a])%list.
Proof.
  intros Ha. induction x as [|c x (l & Hl & IH)].
  - exists [EmptyString]. split; [discriminate|].
    cbn [append strings_Split]. rewrite Ascii.eqb_refl, (Split_whole _ _ Ha).
    reflexivity.
  - cbn [append strings_Split]. rewrite IH.
    destruct (Ascii.eqb c sep).
    + exists (EmptyString :: l). split; [discriminate | reflexivity].
    + destruct l as [|h l]; [contradiction|].
      exists (String c h :: l). split; [discriminate | reflexivity].
Qed.

Lemma ParseInt10_FormatInt10 (i : Z) :
  strconv_ParseInt10 (strconv_FormatInt10 i) = Some i.
Proof.
  unfold strconv_ParseInt10, strconv_FormatInt10.
  destruct (to_int_not_nil i) as [H1 H2].
  rewrite (DecimalString.NilZero.isi _ H1 H2). cbn [option_map].
  now rewrite DecimalZ.of_to.
Qed.

Lemma base64_no_colon (s : string) :
  all_bytes is_base64_byte s = true -> occurs ":" s = false.
Proof. now apply all_bytes_no_occurrence. Qed.

(** X5. With a key that holds no colon the token cut at its colons has
    exactly three fields: the key, a signature of 28 bytes of the base64
    alphabet, and the millisecond timestamp in decimal. *)
Theorem getToken_fields (apiKey0 secretKey0 : string) (now : Z) :
  occurs ":" apiKey0 = false ->
  exists sig,
    strings_Split (getToken now apiKey0 secretKey0) ":"
    = [apiKey0; sig; strconv_FormatInt10 (Z.quot now Millisecond)]
    /\ String.length sig = 28%nat
    /\ all_bytes is_base64_byte sig = true.
Proof.
  intros Hk.
  destruct (getToken_signature apiKey0 secretKey0 now) as (sig & Ht & Hlen & Hb).
  exists sig. split; [|auto].
  rewrite Ht.
  change (apiKey0 ++ ":" ++ sig ++ ":" ++ strconv_FormatInt10 (Z.quot now Millisecond))
    with (apiKey0 ++ String ":" (sig ++ String ":"
            (strconv_FormatInt10 (Z.quot now Millisecond)))).
  rewrite (Split_at_sep _ _ _ Hk).
  rewrite (Split_at_sep _ _ _ (base64_no_colon _ Hb)).
  now rewrite (Split_whole _ _ (FormatInt10_no_colon _)).
Qed.

(** X6. Whatever the keys are, the last colon-separated field of the
    token parses back to the millisecond at which it was generated. *)
Theorem getToken_timestamp_round_trip (apiKey0 secretKey0 : string) (now : Z) :
  strconv_ParseInt10
    (last (strings_Split (getToken now apiKey0 secretKey0) ":") EmptyString)
  = Some (Z.quot now Millisecond).
Proof.
  destruct (getToken_last_field apiKey0 secretKey0 now) as [p Hp]. rewrite Hp.
  destruct (Split_ends_with ":" p _ (FormatInt10_no_colon (Z.quot now Millisecond)))
    as (l & _ & ->).
  rewrite last_last. apply ParseInt10_FormatInt10.
Qed.

(** ** Counting fields *)

Lemma Split_length (sep : ascii) (s : string) :
  List.length (strings_Split s sep) = S (count sep s).
Proof.
  induction s as [|x s IH]; [reflexivity|].
  cbn [strings_Split count]. destruct (Ascii.eqb x sep).
  - cbn [List.length]. now rewrite IH.
  - destruct (strings_Split s sep) as [|h t]; [discriminate IH|]. exact IH.
Qed.

Lemma count_append (c : ascii) (a b : string) :
  count c (a ++ b) = (count c a + count c b)%nat.
Proof.
  induction a as [|x a IH]; [reflexivity|].
  cbn [append count]. destruct (Ascii.eqb x c); now rewrite IH.
Qed.

Lemma count_absent (c : ascii) (s : string) :
  occurs c s = false -> count c s = O.
Proof.
  induction s as [|x s IH]; [reflexivity|].
  cbn [occurs count]. intros H. apply orb_false_iff in H as [Hx Hs].
  now rewrite Hx, (IH Hs).
Qed.

(** X7. The token has three colon-separated fields and one more for
    every colon in the key: a key with a colon in it yields a token
    that does not split into key, signature and timestamp. *)
Theorem getToken_field_count (apiKey0 secretKey0 : string) (now : Z) :
  List.length (strings_Split (getToken now apiKey0 secretKey0) ":")
  = (3 + count ":" apiKey0)%nat.
Proof.
  destruct (getToken_signature apiKey0 secretKey0 now) as (sig & Ht & _ & Hb).
  rewrite Split_length, Ht, !count_append.
  rewrite (count_absent _ _ (base64_no_colon _ Hb)).
  rewrite (count_absent _ _ (FormatInt10_no_colon _)).
  cbn [count Ascii.eqb Bool.eqb]. lia.
Qed.

(** ** Requests, whatever the method *)

(** X8. A request that [makeRequest] builds goes to the URL it was
    given, holds exactly the two header fields, and carries the payload
    only when the method is spelled exactly POST or PUT: under any
    other method, a lower-case one included, a payload is dropped. *)
Theorem makeRequest_shape {R : Runtime} (c : Client) (now : Z)
  (method url payload : string) (req : http.Request) :
  makeRequest c now method url payload = Ok req ->
  http.URL req = url
  /\ http.ReqHeader req
     = [("X-Cns-Security-Token", [getToken now (apiKey c) (secretKey c)]);
        ("Content-Type", ["application/json"])]
  /\ (method = "POST" \/ method = "PUT" -> http.ReqBody req = Some payload)
  /\ (method <> "POST" -> method <> "PUT" -> http.ReqBody req = None).
Proof.
  intros H. apply makeRequest_ok in H as [_ ->].
  split; [reflexivity|]. split; [reflexivity|]. split.
  - intros [->| ->]; reflexivity.
  - intros H1 H2. cbn [signed_request http.set_header http.ReqBody].
    destruct (String.eqb_spec method "POST"); [contradiction|].
    destruct (String.eqb_spec method "PUT"); [contradiction|]. reflexivity.
Qed.

(** ** The normalizers, case by case *)

Section NormalizerCases.

Context {R : Runtime}.
Variable resp : http.Response.

Lemma checkForErrorsChecks_cases :
  checkForErrorsChecks resp
  = if success_status true (http.StatusCode resp) then Return None
    else match http.Body resp with
         | Ok body => Return (Some body)
         | Err err => Fatal err
         end.
Proof.
  unfold checkForErrorsChecks, success_status, http.StatusOK, fmt_Errorf_s.
  destruct (http.StatusCode resp =? 200), (http.StatusCode resp =? 201),
    (http.StatusCode resp =? 202); cbn; try reflexivity;
    destruct (http.Body resp); reflexivity.
Qed.

Lemma checkForErrors_unreadable (err : string) :
  http.StatusCode resp <> 200 ->
  http.Body resp = Err err ->
  checkForErrors resp = Fatal err.
Proof.
  intros E Hb. unfold checkForErrors, http.StatusOK.
  apply Z.eqb_neq in E. now rewrite E, Hb.
Qed.

(** The four ways the primary normalizer can end. *)
Lemma checkForErrors_cases :
  (http.StatusCode resp = 200 /\ checkForErrors resp = Return None)
  \/ (http.StatusCode resp <> 200
      /\ exists err, http.Body resp = Err err /\ checkForErrors resp = Fatal err)
  \/ (http.StatusCode resp <> 200
      /\ exists body errs,
           http.Body resp = Ok body
           /\ errors_field (json_Unmarshal body) = Some errs
           /\ checkForErrors resp
              = Return (Some (String.concat EmptyString errs)))
  \/ (http.StatusCode resp <> 200
      /\ exists body msg,
           http.Body resp = Ok body
           /\ errors_field (json_Unmarshal body) = None
           /\ checkForErrors resp = Panic msg).
Proof.
  destruct (Z.eq_dec (http.StatusCode resp) 200) as [E|E].
  - left. split; [exact E | now apply checkForErrors_ok].
  - right. destruct (http.Body resp) as [body|err] eqn:Hb.
    + right. destruct (errors_field (json_Unmarshal body)) as [errs|] eqn:He.
      * left. split; [exact E|]. exists body, errs.
        repeat split; auto. now apply checkForErrors_shaped with body.
      * right. split; [exact E|].
        destruct (checkForErrors_unshaped resp body E Hb He) as [msg Hm].
        exists body, msg. auto.
    + left. split; [exact E|]. exists err.
      split; [reflexivity | now apply checkForErrors_unreadable].
Qed.

Lemma checkForErrors_fatal_iff (err : string) :
  checkForErrors resp = Fatal err
  <-> http.StatusCode resp <> 200 /\ http.Body resp = Err err.
Proof.
  split.
  - destruct checkForErrors_cases
      as [[_ H]|[(E & e & Hb & H)|[(_ & b & es & _ & _ & H)|(_ & b & m & _ & _ & H)]]];
      rewrite H; try discriminate.
    intros Hf. injection Hf as <-. auto.
  - intros [E Hb]. now apply checkForErrors_unreadable.
Qed.

Lemma checkForErrorsChecks_fatal_iff (err : string) :
  checkForErrorsChecks resp = Fatal err
  <-> ~ (http.StatusCode resp = 200 \/ http.StatusCode resp = 201
         \/ http.StatusCode resp = 202)
      /\ http.Body resp = Err err.
Proof.
  rewrite checkForErrorsChecks_cases. unfold success_status.
  destruct (Z.eqb_spec (http.StatusCode resp) 200);
    destruct (Z.eqb_spec (http.StatusCode resp) 201);
    destruct (Z.eqb_spec (http.StatusCode resp) 202); cbn [orb];
    try (split; [discriminate | tauto]).
  destruct (http.Body resp) as [body|e].
  - split; [discriminate | intros [_ H]; discriminate].
  - split; [intros H; injection H as <-; split; [tauto | reflexivity]|].
    intros [_ H]. injection H as <-. reflexivity.
Qed.

Lemma checkForErrorsChecks_no_panic (msg : string) :
  checkForErrorsChecks resp <> Panic msg.
Proof.
  rewrite checkForErrorsChecks_cases.
  destruct (success_status _ _); [discriminate|].
  destruct (http.Body resp); discriminate.
Qed.

Lemma checkForErrors_panic_only (msg : string) :
  checkForErrors resp = Panic msg ->
  http.StatusCode resp <> 200
  /\ exists body,
       http.Body resp = Ok body
       /\ errors_field (json_Unmarshal body) = None.
Proof.
  destruct checkForErrors_cases
    as [[_ H]|[(E & e & Hb & H)|[(_ & b & es & _ & _ & H)|(E & b & m & Hb & He & H)]]];
    rewrite H; try discriminate.
  intros _. split; [exact E|]. now exists b.
Qed.

(** X9. A normalizer ends the process exactly when the status is not
    one it accepts and the body cannot be read; on an accepted status
    the body is not read at all. *)
Theorem normalizers_fatal (err : string) :
  (checkForErrors resp = Fatal err
   <-> http.StatusCode resp <> 200 /\ http.Body resp = Err err)
  /\ (checkForErrorsChecks resp = Fatal err
      <-> ~ (http.StatusCode resp = 200 \/ http.StatusCode resp = 201
             \/ http.StatusCode resp = 202)
          /\ http.Body resp = Err err).
Proof.
  split; [apply checkForErrors_fatal_iff | apply checkForErrorsChecks_fatal_iff].
Qed.

(** X10. The secondary normalizer never panics.  The primary one panics
    only on a status other than 200 with a readable body that does not
    decode to an object whose [errors] field is a sequence of strings. *)
Theorem normalizers_panic (msg : string) :
  checkForErrorsChecks resp <> Panic msg
  /\ (checkForErrors resp = Panic msg ->
      http.StatusCode resp <> 200
      /\ exists body,
           http.Body resp = Ok body
           /\ errors_field (json_Unmarshal body) = None).
Proof.
  split; [apply checkForErrorsChecks_no_panic | apply checkForErrors_panic_only].
Qed.

Lemma normalize_nil (secondary : bool) :
  normalize secondary resp = Return None ->
  success_status secondary (http.StatusCode resp) = true.
Proof.
  destruct secondary; cbn [normalize].
  - rewrite checkForErrorsChecks_cases.
    destruct (success_status true _); [reflexivity|].
    destruct (http.Body resp); discriminate.
  - intros H. apply checkForErrors_nil_only_on_200 in H.
    unfold success_status. now rewrite H.
Qed.

End NormalizerCases.

(** ** The operations in normal form *)

Section NormalForms.

Context {R : Runtime}.
Variables (c : Client) (now : Z) (endpoint : string).

Lemma GetbyId_normal :
  GetbyId c now endpoint
  = match makeRequest c now "GET" (fst (resolve endpoint)) EmptyString with
    | Err err => ([], Return (None, Some err))
    | Ok req =>
        match gate c with
        | Some err => ([], Return (None, Some err))
        | None => dispatched c (snd (resolve endpoint)) req
        end
    end.
Proof.
  unfold GetbyId, dispatched, normalize, with_response, Do, ret.
  destruct (resolve endpoint) as [url flag]; cbn [fst snd].
  destruct (makeRequest _ _ _ _ _); [|reflexivity].
  destruct (gate c); [reflexivity|]. cbn [bind].
  destruct (httpclient_Do _ _); [|reflexivity].
  destruct flag; cbn [negb]; unfold lift, bind;
    [destruct (checkForErrorsChecks _) | destruct (checkForErrors _)];
    reflexivity.
Qed.

Lemma UpdatebyID_normal (obj : Obj) :
  UpdatebyID c now obj endpoint
  = match json_Marshal obj with
    | Err err => ([], Fatal err)
    | Ok payload =>
        match makeRequest c now "PUT" (fst (resolve endpoint)) payload with
        | Err err => ([], Return (None, Some err))
        | Ok req =>
            match gate c with
            | Some err => ([], Return (None, Some err))
            | None => dispatched c (snd (resolve endpoint)) req
            end
        end
    end.
Proof.
  unfold UpdatebyID, dispatched, normalize, with_response, Do, ret, log_Fatal.
  destruct (json_Marshal obj); [|reflexivity].
  destruct (resolve endpoint) as [url flag]; cbn [fst snd].
  destruct (makeRequest _ _ _ _ _); [|reflexivity].
  destruct (gate c); [reflexivity|]. cbn [bind].
  destruct (httpclient_Do _ _); [|reflexivity].
  destruct flag; cbn [negb]; unfold lift, bind;
    [destruct (checkForErrorsChecks _) | destruct (checkForErrors _)];
    reflexivity.
Qed.

Lemma Save_normal (obj : Obj) :
  Save c now obj endpoint
  = match json_Marshal obj with
    | Err err => ([], Fatal err)
    | Ok payload =>
        match makeRequest c now "POST" (fst (resolve endpoint)) payload with
        | Err err => ([], Return (None, Some err))
        | Ok req =>
            match rateLimiter c with
            | None => ([], Panic nil_dereference)
            | Some rl =>
                match limiter_Wait rl with
                | Some err => ([], Return (None, Some err))
                | None => dispatched c (snd (resolve endpoint)) req
                end
            end
        end
    end.
Proof.
  unfold Save, dispatched, normalize, with_response, Do, ret, log_Fatal, panic.
  destruct (json_Marshal obj); [|reflexivity].
  destruct (resolve endpoint) as [url flag]; cbn [fst snd].
  destruct (makeRequest _ _ _ _ _); [|reflexivity].
  destruct (rateLimiter c); [|reflexivity].
  destruct (limiter_Wait _); [reflexivity|]. cbn [bind].
  destruct (httpclient_Do _ _); [|reflexivity].
  destruct flag; cbn [negb]; unfold lift, bind;
    [destruct (checkForErrorsChecks _) | destruct (checkForErrors _)];
    reflexivity.
Qed.

Lemma DeletebyId_normal :
  DeletebyId c now endpoint
  = match makeRequest c now "DELETE" (fst (resolve endpoint)) EmptyString with
    | Err err => ([], Return (Some err))
    | Ok req =>
        match gate c with
        | Some err => ([], Return (Some err))
        | None =>
            ([req],
             match httpclient_Do (httpclient c) req with
             | Err err => Return (Some err)
             | Ok resp => checkForErrorsChecks resp
             end)
        end
    end.
Proof.
  unfold DeletebyId, Do, ret, lift.
  destruct (makeRequest _ _ _ _ _); [|reflexivity].
  destruct (gate c); [reflexivity|]. cbn [bind].
  destruct (httpclient_Do _ _); [|reflexivity].
  destruct (checkForErrorsChecks _); reflexivity.
Qed.

End NormalForms.

(** ** What the operations do and never do *)

Section OperationProps.

Context {R : Runtime}.
Variables (c : Client) (now : Z) (endpoint : string).


Lemma dispatched_sent secondary req : sent (dispatched c secondary req) = [req].
Proof. reflexivity. Qed.

Lemma dispatched_outcome secondary req :
  outcome (dispatched c secondary req)
  = match httpclient_Do (httpclient c) req with
    | Err err => Return (None, Some err)
    | Ok resp => with_response resp (normalize secondary resp)
    end.
Proof. reflexivity. Qed.

(** Reduce an operation to its normal form and split on every step
    before the dispatch. *)
Ltac normal_cases :=
  rewrite ?Save_normal, ?GetbyId_normal, ?UpdatebyID_normal, ?DeletebyId_normal;
  repeat match goal with
    | |- context [match json_Marshal ?o with _ => _ end] =>
        destruct (json_Marshal o) eqn:?
    | |- context [match makeRequest ?a ?b ?m ?u ?p with _ => _ end] =>
        destruct (makeRequest a b m u p) eqn:?
    | |- context [match gate ?x with _ => _ end] => destruct (gate x) eqn:?
    | |- context [match rateLimiter ?x with _ => _ end] =>
        destruct (rateLimiter x) eqn:?
    | |- context [match limiter_Wait ?x with _ => _ end] =>
        destruct (limiter_Wait x) eqn:?
    end.

(** X11. No operation dispatches more than one request: there is no
    retry. *)
Theorem operations_dispatch_at_most_once (obj : Obj) :
  (List.length (sent (Save c now obj endpoint)) <= 1)%nat
  /\ (List.length (sent (GetbyId c now endpoint)) <= 1)%nat
  /\ (List.length (sent (UpdatebyID c now obj endpoint)) <= 1)%nat
  /\ (List.length (sent (DeletebyId c now endpoint)) <= 1)%nat.
Proof.
  repeat split; normal_cases; cbn; lia.
Qed.

(** X12. An operation that returns a nil error dispatched its request
    and got an answer whose status its policy accepts; create, fetch
    and update return that answer. *)
Theorem nil_error_means_accepted_answer (obj : Obj) :
  let answered (io : IO (option http.Response * error)) :=
    forall r, outcome io = Return (r, None) ->
    exists req resp,
      sent io = [req]
      /\ httpclient_Do (httpclient c) req = Ok resp
      /\ r = Some resp
      /\ success_status (snd (resolve endpoint)) (http.StatusCode resp) = true in
  answered (Save c now obj endpoint)
  /\ answered (GetbyId c now endpoint)
  /\ answered (UpdatebyID c now obj endpoint)
  /\ (outcome (DeletebyId c now endpoint) = Return None ->
      exists req resp,
        sent (DeletebyId c now endpoint) = [req]
        /\ httpclient_Do (httpclient c) req = Ok resp
        /\ success_status true (http.StatusCode resp) = true).
Proof.
  cbv zeta.
  assert (Hd : forall secondary req r,
             outcome (dispatched c secondary req) = Return (r, None) ->
             exists req' resp,
               sent (dispatched c secondary req) = [req']
               /\ httpclient_Do (httpclient c) req' = Ok resp
               /\ r = Some resp
               /\ success_status secondary (http.StatusCode resp) = true).
  { intros secondary req r. rewrite dispatched_outcome, dispatched_sent.
    destruct (httpclient_Do (httpclient c) req) as [resp|e] eqn:Hdo; [|discriminate].
    destruct (normalize secondary resp) as [e| |] eqn:Hn; try discriminate.
    cbn [with_response]. intros H. injection H as <- ->.
    exists req, resp. repeat split; auto. now apply normalize_nil. }
  split; [|split; [|split]].
  - intros r. normal_cases; try (cbn; discriminate). apply Hd.
  - intros r. normal_cases; try (cbn; discriminate). apply Hd.
  - intros r. normal_cases; try (cbn; discriminate). apply Hd.
  - normal_cases; try (cbn; discriminate).
    cbn [outcome sent fst snd].
    match goal with
    | |- context [httpclient_Do ?h ?q] =>
        destruct (httpclient_Do h q) as [resp|e] eqn:Hdo; [|discriminate];
        intros H; exists q, resp
    end.
    repeat split; auto. now apply (normalize_nil resp true).
Qed.


(** X14. A request that was dispatched and failed in transport yields
    that error, with no response and without consulting a normalizer. *)
Theorem transport_error_is_returned (obj : Obj) (req : http.Request) (err : string) :
  httpclient_Do (httpclient c) req = Err err ->
  (In req (sent (Save c now obj endpoint)) ->
   outcome (Save c now obj endpoint) = Return (None, Some err))
  /\ (In req (sent (GetbyId c now endpoint)) ->
      outcome (GetbyId c now endpoint) = Return (None, Some err))
  /\ (In req (sent (UpdatebyID c now obj endpoint)) ->
      outcome (UpdatebyID c now obj endpoint) = Return (None, Some err))
  /\ (In req (sent (DeletebyId c now endpoint)) ->
      outcome (DeletebyId c now endpoint) = Return (Some err)).
Proof.
  intros Hd.
  split; [|split; [|split]]; normal_cases; cbn; try tauto;
    intros [->|[]]; now rewrite Hd.
Qed.

Lemma not_accepted (secondary : bool) (status : Z) :
  success_status secondary status = false
  <-> (if secondary
       then ~ (status = 200 \/ status = 201 \/ status = 202)
       else status <> 200).
Proof.
  unfold success_status. destruct secondary.
  - destruct (Z.eqb_spec status 200), (Z.eqb_spec status 201),
      (Z.eqb_spec status 202); cbn; split; intros H; try discriminate;
      try tauto; try (exfalso; tauto).
  - destruct (Z.eqb_spec status 200); split; intros H; try discriminate;
      try tauto; try (exfalso; tauto).
Qed.

Lemma normalize_fatal secondary resp err :
  normalize secondary resp = Fatal err ->
  http.Body resp = Err err
  /\ success_status secondary (http.StatusCode resp) = false.
Proof.
  destruct secondary; cbn [normalize]; intros H.
  - apply checkForErrorsChecks_fatal_iff in H as [Hst Hb].
    split; [exact Hb|]. now apply not_accepted.
  - apply checkForErrors_fatal_iff in H as [Hst Hb].
    split; [exact Hb|]. now apply not_accepted.
Qed.

Lemma dispatched_fatal secondary req err :
  outcome (dispatched c secondary req) = Fatal err ->
  exists resp,
    httpclient_Do (httpclient c) req = Ok resp
    /\ http.Body resp = Err err
    /\ success_status secondary (http.StatusCode resp) = false.
Proof.
  rewrite dispatched_outcome.
  destruct (httpclient_Do (httpclient c) req) as [resp|e]; [|discriminate].
  destruct (normalize secondary resp) eqn:Hn; try discriminate.
  cbn [with_response]. intros H. injection H as ->.
  exists resp. split; [reflexivity|]. now apply normalize_fatal.
Qed.

(** X15. An operation ends the process only in two ways: create and
    update when the object cannot be encoded, before anything is
    dispatched; and any operation when the answer has a status its
    normalizer refuses and a body that cannot be read. *)
Theorem operations_fatal (obj : Obj) (err : string) :
  let unreadable secondary (io_sent : list http.Request) :=
    exists req resp,
      io_sent = [req]
      /\ httpclient_Do (httpclient c) req = Ok resp
      /\ http.Body resp = Err err
      /\ success_status secondary (http.StatusCode resp) = false in
  (outcome (Save c now obj endpoint) = Fatal err ->
   (json_Marshal obj = Err err /\ sent (Save c now obj endpoint) = [])
   \/ unreadable (snd (resolve endpoint)) (sent (Save c now obj endpoint)))
  /\ (outcome (GetbyId c now endpoint) = Fatal err ->
      unreadable (snd (resolve endpoint)) (sent (GetbyId c now endpoint)))
  /\ (outcome (UpdatebyID c now obj endpoint) = Fatal err ->
      (json_Marshal obj = Err err /\ sent (UpdatebyID c now obj endpoint) = [])
      \/ unreadable (snd (resolve endpoint)) (sent (UpdatebyID c now obj endpoint)))
  /\ (outcome (DeletebyId c now endpoint) = Fatal err ->
      unreadable true (sent (DeletebyId c now endpoint))).
Proof.
  cbv zeta. split; [|split; [|split]]; normal_cases; try (cbn; discriminate).
  - intros H. right. apply dispatched_fatal in H as (resp & Hd & Hb & Hs).
    eexists _, resp. rewrite dispatched_sent. eauto.
  - cbn. intros H. injection H as ->. left. auto.
  - intros H. apply dispatched_fatal in H as (resp & Hd & Hb & Hs).
    eexists _, resp. rewrite dispatched_sent. eauto.
  - intros H. right. apply dispatched_fatal in H as (resp & Hd & Hb & Hs).
    eexists _, resp. rewrite dispatched_sent. eauto.
  - cbn. intros H. injection H as ->. left. auto.
  - cbn [outcome sent fst snd].
    match goal with
    | |- context [httpclient_Do ?h ?q] =>
        destruct (httpclient_Do h q) as [resp|e] eqn:Hdo; [|discriminate];
        intros H; exists q, resp
    end.
    apply (normalize_fatal true) in H as [Hb Hs]. auto.
Qed.

(** X16. Delete never panics.  Fetch and update panic only on a
    primary endpoint whose answer makes the primary normalizer panic;
    create panics besides only through a client without a limiter. *)
Theorem operations_panic (obj : Obj) (msg : string) :
  let unshaped (io_sent : list http.Request) :=
    snd (resolve endpoint) = false
    /\ exists req resp body,
         io_sent = [req]
         /\ httpclient_Do (httpclient c) req = Ok resp
         /\ http.StatusCode resp <> 200
         /\ http.Body resp = Ok body
         /\ errors_field (json_Unmarshal body) = None in
  outcome (DeletebyId c now endpoint) <> Panic msg
  /\ (outcome (GetbyId c now endpoint) = Panic msg ->
      unshaped (sent (GetbyId c now endpoint)))
  /\ (outcome (UpdatebyID c now obj endpoint) = Panic msg ->
      unshaped (sent (UpdatebyID c now obj endpoint)))
  /\ (outcome (Save c now obj endpoint) = Panic msg ->
      (rateLimiter c = None /\ sent (Save c now obj endpoint) = [])
      \/ unshaped (sent (Save c now obj endpoint))).
Proof.
  cbv zeta.
  assert (Hd : forall req,
             outcome (dispatched c (snd (resolve endpoint)) req) = Panic msg ->
             snd (resolve endpoint) = false
             /\ exists req' resp body,
                  sent (dispatched c (snd (resolve endpoint)) req) = [req']
                  /\ httpclient_Do (httpclient c) req' = Ok resp
                  /\ http.StatusCode resp <> 200
                  /\ http.Body resp = Ok body
                  /\ errors_field (json_Unmarshal body) = None).
  { intros req. rewrite dispatched_outcome, dispatched_sent.
    destruct (httpclient_Do (httpclient c) req) as [resp|e] eqn:Hdo; [|discriminate].
    destruct (normalize (snd (resolve endpoint)) resp) eqn:Hn; try discriminate.
    cbn [with_response]. intros H. injection H as ->.
    destruct (snd (resolve endpoint)); cbn [normalize] in Hn;
      [now apply checkForErrorsChecks_no_panic in Hn|].
    apply checkForErrors_panic_only in Hn as (Hst & body & Hb & He).
    split; [reflexivity|]. exists req, resp, body. auto. }
  split; [|split; [|split]]; normal_cases; try (cbn; discriminate);
    try (intros H; apply Hd in H; tauto).
  - cbn [outcome snd].
    match goal with
    | |- context [httpclient_Do ?h ?q] =>
        destruct (httpclient_Do h q) as [resp|e]; [|discriminate]
    end.
    apply checkForErrorsChecks_no_panic.
  - intros _. left. auto.
Qed.

End OperationProps.

(** ** Where requests go *)

Lemma third_segment_of_base (endpoint : string) :
  third_segment (BaseURL ++ endpoint) = Some dns_host.
Proof.
  unfold third_segment.
  change (BaseURL ++ endpoint)
    with ("https:" ++ String "/" (EmptyString ++ String "/"
            (dns_host ++ String "/" endpoint))).
  rewrite !Split_append_sep by reflexivity. reflexivity.
Qed.

(** X17. The URL an operation calls always has one of the two known
    hosts as its third segment.  Resolving is not idempotent on primary
    endpoints: a caller who passes an absolute URL of the primary API
    gets the base URL in front of it once more; on secondary endpoints
    it is. *)
Theorem resolved_url_names_a_known_host (endpoint : string) :
  (third_segment (fst (resolve endpoint)) = Some sonar_host
   \/ third_segment (fst (resolve endpoint)) = Some dns_host)
  /\ resolve (BaseURL ++ endpoint) = (BaseURL ++ BaseURL ++ endpoint, false)
  /\ (snd (resolve endpoint) = true ->
      resolve (fst (resolve endpoint)) = resolve endpoint)
  /\ (snd (resolve endpoint) = false ->
      resolve (fst (resolve endpoint)) = (BaseURL ++ BaseURL ++ endpoint, false)).
Proof.
  assert (Hb : forall e, resolve (BaseURL ++ e) = (BaseURL ++ BaseURL ++ e, false)).
  { intros e. rewrite resolve_third_segment, third_segment_of_base. reflexivity. }
  split; [|split; [exact (Hb endpoint)|split]].
  - rewrite (resolve_third_segment endpoint).
    destruct (third_segment endpoint) as [seg|] eqn:Hs; cbn [fst].
    + destruct (String.eqb_spec seg sonar_host) as [->|]; cbn [fst].
      * left. exact Hs.
      * right. apply third_segment_of_base.
    + right. apply third_segment_of_base.
  - intros H. destruct (resolve_cases endpoint) as [Hv _]. now rewrite (Hv H).
  - intros H. destruct (resolve_cases endpoint) as [_ Hp]. rewrite (Hp H). apply Hb.
Qed.

(** ** Intervals at the edges of float32 *)

Section IntervalEdges.

Context {R : Runtime}.
Variable client : Client.

(** X18. Which intervals install a gate: a NaN, a negative number and
    minus infinity leave the client as it was; a zero of either sign
    installs a limiter of unlimited rate; plus infinity installs the
    limiter of whatever the platform converts an overflowing float to;
    a positive number installs a limiter of capacity one for the
    truncated thousandfold of the interval, in nanoseconds. *)
Theorem RequestInterval_by_class (pInterval : f32.t) :
  match pInterval with
  | S754_nan | S754_infinity true | S754_finite true _ _ =>
      RequestInterval pInterval client = client
  | S754_zero _ =>
      rateLimiter (RequestInterval pInterval client)
      = Some (rate.NewLimiter rate.Inf 1)
  | S754_infinity false =>
      rateLimiter (RequestInterval pInterval client)
      = Some (rate.NewLimiter (rate.Every float_overflow) 1)
  | S754_finite false _ _ =>
      rateLimiter (RequestInterval pInterval client)
      = Some (rate.NewLimiter (rate.Every (interval_duration pInterval)) 1)
  end.
Proof.
  destruct pInterval as [s|s| |s m e]; try destruct s; reflexivity.
Qed.

End IntervalEdges.

(** ** Construction and create together *)

Section CreateAfterConstruction.

Context {R : Runtime}.

Lemma configured_gate_capacity (specs : list option_spec) (c0 : Client) :
  (forall rl, rateLimiter c0 = Some rl -> rate.burst rl = 1) ->
  forall rl,
    rateLimiter (fold_left (fun c option => option c) (map option_of specs) c0)
    = Some rl ->
    rate.burst rl = 1.
Proof.
  revert c0. induction specs as [|o specs IH]; intros c0 H0; cbn [map fold_left].
  - exact H0.
  - apply IH. destruct o as [b|u|p]; cbn [option_of]; try exact H0.
    unfold RequestInterval. destruct (f32.geb p (f32.of_Z 0)); [|exact H0].
    cbn. intros rl E. injection E as <-. reflexivity.
Qed.

Lemma initClient_gate_capacity (apiKey0 secretKey0 : string)
  (specs : list option_spec) (c : Client) (rl : rate.Limiter) :
  initClient apiKey0 secretKey0 (map option_of specs) = Return c ->
  rateLimiter c = Some rl -> rate.burst rl = 1.
Proof.
  rewrite initClient_unfold. cbv zeta. unfold configured.
  pose proof (configured_gate_capacity specs (new_client apiKey0 secretKey0)) as H.
  assert (H0 : forall rl0, rateLimiter (new_client apiKey0 secretKey0) = Some rl0 ->
                           rate.burst rl0 = 1) by discriminate.
  specialize (H H0).
  destruct (String.eqb _ EmptyString).
  - intros E. injection E as <-. apply H.
  - destruct (url_Parse _); [discriminate|].
    intros E. injection E as <-. apply H.
Qed.

(** X19. Through a client that construction returned, a create call
    whose object encodes and whose URL parses panics on the nil limiter
    exactly when no option gave an interval of at least zero;
    otherwise the limiter has capacity one and, once its wait returns,
    the request is dispatched. *)
Theorem create_after_construction (apiKey0 secretKey0 : string)
  (specs : list option_spec) (c : Client)
  (now : Z) (obj : Obj) (endpoint payload : string) :
  initClient apiKey0 secretKey0 (map option_of specs) = Return c ->
  json_Marshal obj = Ok payload ->
  url_Parse (fst (resolve endpoint)) = None ->
  (Save c now obj endpoint = ([], Panic nil_dereference)
   <-> existsb installs_gate specs = false)
  /\ (existsb installs_gate specs = true ->
      exists rl,
        rateLimiter c = Some rl /\ rate.burst rl = 1
        /\ (limiter_Wait rl = None ->
            exists req, sent (Save c now obj endpoint) = [req])).
Proof.
  intros Hc Hm Hu.
  destruct (initClient_fields _ _ _ _ Hc) as (_ & _ & Hg).
  destruct (makeRequest_parses c now "POST" _ payload (or_introl eq_refl) Hu)
    as [req Hq].
  rewrite Save_normal, Hm, Hq.
  destruct (rateLimiter c) as [rl|] eqn:Hl.
  - assert (He : existsb installs_gate specs = true).
    { destruct (existsb installs_gate specs); [reflexivity|].
      destruct Hg as [_ Hg]. discriminate (Hg eq_refl). }
    split.
    + rewrite He. split; [|discriminate].
      destruct (limiter_Wait rl); [discriminate|].
      unfold dispatched. discriminate.
    + intros _. exists rl. split; [reflexivity|].
      split; [now apply (initClient_gate_capacity _ _ _ _ _ Hc)|].
      intros ->. exists req. reflexivity.
  - destruct Hg as [Hg _]. rewrite (Hg eq_refl).
    split; [tauto | discriminate].
Qed.

End CreateAfterConstruction.

(** ** The properties at concrete inputs *)

Lemma initClient_transport_witness :
  let R := reference_runtime (answers 200 "{}") in
  let c :=
    {| httpclient :=
         {| http.transport :=
              {| http.CipherSuites := [49171; 49172; 49191; 49199; 49200];
                 http.PreferServerCipherSuites := true;
                 http.InsecureSkipVerify := true;
                 http.MinVersion := 770; http.MaxVersion := 771;
                 http.Proxy := Some "http://proxy.local:3128" |} |};
       rateLimiter := None; apiKey := "key"; secretKey := "secret";
       insecure := true; proxyUrl := "http://proxy.local:3128" |} in
  initClient "key" "secret" [Insecure true; ProxyUrl "http://proxy.local:3128"]
  = Return c
  /\ http.InsecureSkipVerify (http.transport (httpclient c)) = insecure c
  /\ url_Parse (proxyUrl c) = None.
Proof.
  intros R c.
  assert (H : initClient "key" "secret"
                [Insecure true; ProxyUrl "http://proxy.local:3128"] = Return c)
    by (vm_compute; reflexivity).
  destruct (initClient_transport (R := R) "key" "secret"
              [Insecure true; ProxyUrl "http://proxy.local:3128"] c H)
    as (_ & _ & _ & _ & Hi & _ & Hp).
  split; [exact H|]. split; [exact Hi|]. apply Hp. discriminate.
Defined.

Lemma initClient_order_witness :
  let R := reference_runtime (answers 200 "{}") in
  initClient "key" "secret"
    (map option_of [WithInsecure true; WithRequestInterval half_second])
  = initClient "key" "secret"
      (map option_of [WithRequestInterval half_second; WithInsecure true]).
Proof.
  intros R.
  exact (initClient_order (R := R) "key" "secret" [] []
           (WithInsecure true) (WithRequestInterval half_second) eq_refl).
Defined.

Lemma initClient_credentials_and_gate_witness :
  let R := reference_runtime (answers 200 "{}") in
  let c := set_httpclient {| http.transport := useInsecureHTTPClient true |}
             (Insecure true (new_client "key" "secret")) in
  initClient "key" "secret"
    (map option_of [WithInsecure true; WithRequestInterval minus_one])
  = Return c
  /\ apiKey c = "key" /\ secretKey c = "secret" /\ rateLimiter c = None.
Proof.
  intros R c.
  assert (H : initClient "key" "secret"
                (map option_of [WithInsecure true; WithRequestInterval minus_one])
              = Return c) by (vm_compute; reflexivity).
  destruct (initClient_credentials_and_gate (R := R) "key" "secret"
              [WithInsecure true; WithRequestInterval minus_one] c H)
    as (Ha & Hs & Hg).
  split; [exact H|]. split; [exact Ha|]. split; [exact Hs|].
  apply Hg. vm_compute. reflexivity.
Defined.

Lemma getToken_fields_witness :
  exists sig,
    strings_Split (getToken 1700000000123456789 "key" "secret") ":"
    = ["key"; sig; strconv_FormatInt10 (Z.quot 1700000000123456789 Millisecond)]
    /\ String.length sig = 28%nat
    /\ all_bytes is_base64_byte sig = true.
Proof.
  exact (getToken_fields "key" "secret" 1700000000123456789 eq_refl).
Defined.

Lemma makeRequest_shape_witness :
  let R := reference_runtime (answers 200 "{}") in
  let c := new_client "key" "secret" in
  let req := signed_request c 1700000000123456789 "post"
               "https://api.dns.constellix.com/v1/domains" None in
  makeRequest c 1700000000123456789 "post"
    "https://api.dns.constellix.com/v1/domains" "{}" = Ok req
  /\ http.ReqBody req = None.
Proof.
  intros R c req.
  assert (H : makeRequest c 1700000000123456789 "post"
                "https://api.dns.constellix.com/v1/domains" "{}" = Ok req)
    by (vm_compute; reflexivity).
  destruct (makeRequest_shape (R := R) c 1700000000123456789 "post"
              "https://api.dns.constellix.com/v1/domains" "{}" req H)
    as (_ & _ & _ & Hn).
  split; [exact H|]. apply Hn; discriminate.
Defined.


Lemma transport_error_is_returned_witness :
  let R := reference_runtime unreachable in
  let c := new_client "key" "secret" in
  outcome (GetbyId c 1700000000123456789 "v1/domains")
  = Return (None, Some "dial tcp: connection refused").
Proof.
  intros R c.
  apply (proj1 (proj2 (transport_error_is_returned (R := R) c 1700000000123456789
                         "v1/domains" (AnInt 0)
                         (signed_request c 1700000000123456789 "GET"
                            "https://api.dns.constellix.com/v1/domains" None)
                         "dial tcp: connection refused" eq_refl))).
  vm_compute. left. reflexivity.
Defined.

Lemma create_after_construction_witness :
  let R := reference_runtime (answers 200 "{}") in
  let c := set_httpclient {| http.transport := useInsecureHTTPClient false |}
             (new_client "key" "secret") in
  Save c 1700000000123456789 (AnInt 7) "v1/domains" = ([], Panic nil_dereference).
Proof.
  intros R c.
  destruct (create_after_construction (R := R) "key" "secret" [] c
              1700000000123456789 (AnInt 7) "v1/domains" "7") as [Hp _];
    [vm_compute; reflexivity | reflexivity | vm_compute; reflexivity |].
  apply Hp. reflexivity.
Defined.

(** ** Classification, segment by segment *)

Lemma Split_no_slash (s : string) :
  occurs "/" s = false -> strings_Split s "/" = [s].
Proof. apply Split_whole. Qed.

(** A text holds no slash, or is a slash-free segment, a slash, and a
    rest that is cut on its own. *)
Lemma Split_head (s : string) :
  (occurs "/" s = false /\ strings_Split s "/" = [s])
  \/ exists a r,
       occurs "/" a = false /\ s = a ++ String "/" r
       /\ strings_Split s "/" = a :: strings_Split r "/".
Proof.
  induction s as [|c s IH].
  - left. split; reflexivity.
  - cbn [strings_Split occurs]. destruct (Ascii.eqb c "/") eqn:Hc.
    + right. exists EmptyString, s. apply Ascii.eqb_eq in Hc. subst c.
      repeat split.
    + destruct IH as [[Ho Hs]|(a & r & Ha & -> & Hs)].
      * left. rewrite Ho, Hs. split; reflexivity.
      * right. exists (String c a), r. rewrite Hs.
        cbn [occurs]. rewrite Hc, Ha. repeat split.
Qed.

Lemma third_segment_intrinsic (endpoint seg : string) :
  third_segment endpoint = Some seg <-> third_segment_is endpoint seg.
Proof.
  unfold third_segment, third_segment_is. split.
  - destruct (Split_head endpoint) as [[_ ->]|(a & r1 & Ha & -> & ->)];
      [discriminate|].
    destruct (Split_head r1) as [[_ ->]|(b & r2 & Hb & -> & ->)];
      [discriminate|].
    cbn [nth_error].
    destruct (Split_head r2) as [[Ho ->]|(s & rest & Hs & -> & ->)];
      cbn [nth_error]; intros H; injection H as <-; exists a, b.
    + repeat split; auto.
    + repeat split; auto. right. exists rest. reflexivity.
  - intros (a & b & Ha & Hb & Hs & [->|[rest ->]]).
    + change (a ++ "/" ++ b ++ "/" ++ seg)
        with (a ++ String "/" (b ++ String "/" seg)).
      rewrite !Split_append_sep by assumption.
      now rewrite (Split_no_slash _ Hs).
    + change (a ++ "/" ++ b ++ "/" ++ seg ++ "/" ++ rest)
        with (a ++ String "/" (b ++ String "/" (seg ++ String "/" rest))).
      now rewrite !Split_append_sep by assumption.
Qed.

Lemma third_segment_few_slashes (endpoint : string) :
  (count "/" endpoint < 2)%nat -> third_segment endpoint = None.
Proof.
  intros H. unfold third_segment. apply nth_error_None.
  rewrite Split_length. lia.
Qed.

Lemma resolve_primary (endpoint : string) :
  third_segment endpoint <> Some sonar_host ->
  resolve endpoint = (BaseURL ++ endpoint, false).
Proof.
  intros H. rewrite resolve_third_segment.
  destruct (third_segment endpoint) as [seg|]; [|reflexivity].
  destruct (String.eqb_spec seg sonar_host) as [->|]; [contradiction|reflexivity].
Qed.

(** C10, as the code has it.  The flag is set exactly when the third
    slash-separated segment of the endpoint is the secondary host, and
    then the endpoint is called as it is; otherwise the base URL is put
    in front.  An endpoint with fewer than two slashes, that is fewer
    than three segments, is primary.  An endpoint that starts with the
    secondary host and no scheme is primary when the host is followed
    by one segment, or by two or more of which the second is not the
    host again. *)
Theorem C10_classification_by_third_segment (endpoint : string) :
  (snd (resolve endpoint) = true <-> third_segment_is endpoint sonar_host)
  /\ (snd (resolve endpoint) = true -> fst (resolve endpoint) = endpoint)
  /\ (snd (resolve endpoint) = false ->
      fst (resolve endpoint) = BaseURL ++ endpoint)
  /\ ((count "/" endpoint < 2)%nat ->
      resolve endpoint = (BaseURL ++ endpoint, false))
  /\ (forall p1 p2 rest : string,
        occurs "/" p1 = false ->
        occurs "/" p2 = false ->
        p2 <> sonar_host ->
        endpoint = sonar_host ++ "/" ++ p1
        \/ endpoint = sonar_host ++ "/" ++ p1 ++ "/" ++ p2
        \/ endpoint = sonar_host ++ "/" ++ p1 ++ "/" ++ p2 ++ "/" ++ rest ->
        resolve endpoint = (BaseURL ++ endpoint, false)).
Proof.
  split; [|split; [|split; [|split]]].
  - rewrite resolve_secondary_iff. apply third_segment_intrinsic.
  - apply resolve_cases.
  - apply resolve_cases.
  - intros H. apply resolve_primary.
    rewrite (third_segment_few_slashes _ H). discriminate.
  - intros p1 p2 rest H1 H2 Hne [->|[->| ->]]; apply resolve_primary;
      unfold third_segment.
    + change (sonar_host ++ "/" ++ p1) with (sonar_host ++ String "/" p1).
      rewrite Split_append_sep by reflexivity.
      rewrite (Split_no_slash _ H1). discriminate.
    + change (sonar_host ++ "/" ++ p1 ++ "/" ++ p2)
        with (sonar_host ++ String "/" (p1 ++ String "/" p2)).
      rewrite Split_append_sep by reflexivity.
      rewrite Split_append_sep by assumption.
      rewrite (Split_no_slash _ H2). cbn [nth_error]. congruence.
    + change (sonar_host ++ "/" ++ p1 ++ "/" ++ p2 ++ "/" ++ rest)
        with (sonar_host ++ String "/" (p1 ++ String "/" (p2 ++ String "/" rest))).
      rewrite Split_append_sep by reflexivity.
      rewrite !Split_append_sep by assumption.
      cbn [nth_error]. congruence.
Qed.

(** The endpoints of the claim: the secondary URL is called as it is,
    the host without a scheme and an endpoint of two segments get the
    base URL in front. *)
Lemma C10_classification_witness :
  resolve "https://api.sonar.constellix.com/v1/x"
  = ("https://api.sonar.constellix.com/v1/x", true)
  /\ resolve "api.sonar.constellix.com/v1/x"
     = ("https://api.dns.constellix.com/api.sonar.constellix.com/v1/x", false)
  /\ resolve "v1/domains" = ("https://api.dns.constellix.com/v1/domains", false).
Proof.
  assert (Hs : snd (resolve "https://api.sonar.constellix.com/v1/x") = true).
  { apply (proj1 (C10_classification_by_third_segment
                    "https://api.sonar.constellix.com/v1/x")).
    exists "https:", EmptyString.
    split; [reflexivity|]. split; [reflexivity|]. split; [reflexivity|].
    right. exists "v1/x". reflexivity. }
  split; [|split].
  - rewrite (surjective_pairing (resolve "https://api.sonar.constellix.com/v1/x")).
    rewrite (proj1 (proj2 (C10_classification_by_third_segment
                             "https://api.sonar.constellix.com/v1/x")) Hs), Hs.
    reflexivity.
  - apply (proj2 (proj2 (proj2 (proj2
             (C10_classification_by_third_segment "api.sonar.constellix.com/v1/x")))))
      with (p1 := "v1") (p2 := "x") (rest := EmptyString);
      [reflexivity | reflexivity | discriminate | right; left; reflexivity].
  - apply (proj1 (proj2 (proj2 (proj2
             (C10_classification_by_third_segment "v1/domains"))))).
    vm_compute. lia.
Defined.

(** C10 as it is worded fails: an endpoint that names the secondary
    host without a scheme is called as it is and judged secondary when
    the host comes back as its third segment, or when the endpoint
    starts with two slashes. *)
Lemma C10_scheme_less_host_counterexample :
  "api.sonar.constellix.com/x/api.sonar.constellix.com"
  = sonar_host ++ "/" ++ "x/api.sonar.constellix.com"
  /\ resolve "api.sonar.constellix.com/x/api.sonar.constellix.com"
     = ("api.sonar.constellix.com/x/api.sonar.constellix.com", true)
  /\ resolve "//api.sonar.constellix.com/v1/x"
     = ("//api.sonar.constellix.com/v1/x", true).
Proof. split; [reflexivity|]. split; vm_compute; reflexivity. Qed.
